(** * mcp2websocket: the connection lifecycle of the stdio <-> WebSocket bridge

    A shallow embedding of the class [MCPWebSocketBridge] of mcp2websocket.js
    (the second document of src/tests/test-reconnection.js, lines 63-338;
    line numbers below are those of that file): the object's fields, the
    timers of the JavaScript runtime it arms, and one function per method and
    per event listener.  Every listener runs as one turn of the
    single-threaded event loop, so a turn is a function from state to state
    and an execution is a sequence of turns.

    Numbers.  The reconnect delay is computed in the source with IEEE
    doubles; here it is an exact rational.  With the default options the two
    agree: for attempts 0..8 the value 1000 * 3^n / 2^n is a dyadic rational
    whose numerator is below 2^53, and from attempt 9 on the product exceeds
    30000 by a wide margin, so [Math.min] returns 30000 either way.  With
    other options the double can differ from the rational by rounding (an
    interval of 1000 with a decay of 1.1 gives 1331.0000000000005 at attempt
    3, not 1331), so the value of the delay is stated for the default
    options only; for other options [reconnect_timeout] names the argument
    of [setTimeout], and nothing is derived from its arithmetic. *)

From Stdlib Require Import List String Ascii Bool Arith ZArith QArith Qminmax Qpower Lia.
Import ListNotations.

Local Open Scope string_scope.
Local Open Scope nat_scope.
Local Open Scope list_scope.

(** ** The WebSocket object of the [ws] library, as far as the bridge reads it *)

Inductive ReadyState := CONNECTING | OPEN | CLOSING | CLOSED.

Definition ReadyState_eqb (a b : ReadyState) : bool :=
  match a, b with
  | CONNECTING, CONNECTING | OPEN, OPEN | CLOSING, CLOSING | CLOSED, CLOSED => true
  | _, _ => false
  end.

Record WebSocket := mkWebSocket {
  ws_url : string;
  ws_authorization : option string;   (* headers['Authorization'] *)
  readyState : ReadyState
}.

(** [ws.close()]: an open or connecting socket starts closing; a closing or
    closed one is left as it is. *)
Definition WebSocket_close (w : WebSocket) : WebSocket :=
  match readyState w with
  | CONNECTING | OPEN => mkWebSocket (ws_url w) (ws_authorization w) CLOSING
  | CLOSING | CLOSED => w
  end.

Definition WebSocket_set_readyState (r : ReadyState) (w : WebSocket) : WebSocket :=
  mkWebSocket (ws_url w) (ws_authorization w) r.

(** ** Options, with the constructor's [||] defaults *)

Record UserOptions := mkUserOptions {
  u_token : option string;
  u_reconnectInterval : option Q;
  u_maxReconnectInterval : option Q;
  u_reconnectDecay : option Q;
  u_heartbeatInterval : option Q;
  u_debug : option bool
}.

Definition no_options : UserOptions :=
  mkUserOptions None None None None None None.

(** [process.env], the two variables the constructor reads. *)
Record Env := mkEnv {
  AUTH_TOKEN : option string;
  DEBUG : option string
}.

Record Options := mkOptions {
  token : option string;
  reconnectInterval : Q;
  maxReconnectInterval : Q;
  reconnectDecay : Q;
  heartbeatInterval : Q;
  debug : bool
}.

(** [x || d] on a number: [undefined] and [0] are falsy. *)
Definition num_or (x : option Q) (d : Q) : Q :=
  match x with
  | Some q => if Qeq_bool q 0 then d else q
  | None => d
  end.

(** [x || y] on an optional string: [undefined] and the empty string are falsy. *)
Definition str_or (x y : option string) : option string :=
  match x with
  | Some EmptyString => y
  | Some s => Some s
  | None => y
  end.

Definition build_options (o : UserOptions) (env : Env) : Options :=
  {| token := str_or (u_token o) (AUTH_TOKEN env);
     reconnectInterval := num_or (u_reconnectInterval o) 1000;
     maxReconnectInterval := num_or (u_maxReconnectInterval o) 30000;
     reconnectDecay := num_or (u_reconnectDecay o) (3 # 2);
     heartbeatInterval := num_or (u_heartbeatInterval o) 30000;
     debug := match u_debug o with
              | Some true => true
              | _ => match DEBUG env with
                     | Some v => String.eqb v "true"
                     | None => false
                     end
              end |}.

(** ** Timers of the runtime *)

Inductive TimerKind := ReconnectTimeout | HeartbeatInterval.

Definition TimerKind_eqb (a b : TimerKind) : bool :=
  match a, b with
  | ReconnectTimeout, ReconnectTimeout | HeartbeatInterval, HeartbeatInterval => true
  | _, _ => false
  end.

Record Timer := mkTimer {
  timer_id : nat;
  timer_kind : TimerKind;      (* which callback it runs *)
  timer_delay : Q
}.

Definition remove_timer (id : nat) (tm : list Timer) : list Timer :=
  filter (fun t => negb (Nat.eqb (timer_id t) id)) tm.

Inductive Signal := SIGINT | SIGTERM.

Inductive Level := info | debug_level | warn | error.

(** [JSON.parse] and [JSON.stringify] are builtins of the runtime, not code of
    the bridge: the bridge only needs that parsing either yields a value
    ([Some]) or throws ([None]).  The model is generic in them. *)
Class JsonCodec := {
  Json : Type;
  JSON_parse : string -> option Json;
  JSON_stringify : Json -> string
}.

Section Bridge.

Context {codec : JsonCodec}.

(** One constructor per [this.log(...)] call site. *)
Inductive LogMsg :=
| Starting_bridge
| Connecting_to (u : string)
| Received_from_stdin (m : Json)
| Failed_to_parse_stdin (line : string)
| Stdin_closed
| Received_signal (sig : Signal)
| WebSocket_connected
| Received_from_WebSocket (m : Json)
| Failed_to_parse_WebSocket (data : string)
| WebSocket_error
| WebSocket_closed
| Received_pong
| Failed_to_create_WebSocket
| Scheduling_reconnect (timeout : Q) (attempt : nat)
| Sending_ping
| Not_connected_queuing
| Sending_queued (m : Json)
| Shutting_down.

Definition level_of (l : LogMsg) : Level :=
  match l with
  | Starting_bridge | Connecting_to _ | Stdin_closed | Received_signal _
  | WebSocket_connected | WebSocket_closed | Scheduling_reconnect _ _
  | Shutting_down => info
  | Received_from_stdin _ | Received_from_WebSocket _ | Received_pong
  | Sending_ping | Sending_queued _ => debug_level
  | Not_connected_queuing => warn
  | Failed_to_parse_stdin _ | Failed_to_parse_WebSocket _ | WebSocket_error
  | Failed_to_create_WebSocket => error
  end.

Definition is_error (l : LogMsg) : bool :=
  match level_of l with
  | error => true
  | _ => false
  end.

(** ** The bridge object together with what the runtime holds for it *)

Record State := mkState {
  (* fields of [this] *)
  url : string;
  options : Options;
  ws : option WebSocket;
  messageQueue : list Json;
  reconnectAttempts : nat;
  isConnected : bool;
  heartbeatTimer : option nat;
  reconnectTimer : option nat;
  (* [this.rl]: closed flag, and whether the bridge's listeners are attached *)
  rl_closed : bool;
  rl_listening : bool;
  (* the runtime: armed timers, next timer handle *)
  timers : list Timer;
  next_timer : nat;
  (* what has been observed from outside *)
  wire : list string;          (* frames handed to [ws.send] *)
  pings : nat;                 (* calls of [ws.ping] *)
  stdout : list string;        (* lines written by [console.log] *)
  stderr : list LogMsg;        (* lines written by [console.error] *)
  exit_code : option Z         (* [process.exit(c)] was called *)
}.

Definition set_ws v s := mkState (url s) (options s) v (messageQueue s) (reconnectAttempts s) (isConnected s) (heartbeatTimer s) (reconnectTimer s) (rl_closed s) (rl_listening s) (timers s) (next_timer s) (wire s) (pings s) (stdout s) (stderr s) (exit_code s).
Definition set_messageQueue v s := mkState (url s) (options s) (ws s) v (reconnectAttempts s) (isConnected s) (heartbeatTimer s) (reconnectTimer s) (rl_closed s) (rl_listening s) (timers s) (next_timer s) (wire s) (pings s) (stdout s) (stderr s) (exit_code s).
Definition set_reconnectAttempts v s := mkState (url s) (options s) (ws s) (messageQueue s) v (isConnected s) (heartbeatTimer s) (reconnectTimer s) (rl_closed s) (rl_listening s) (timers s) (next_timer s) (wire s) (pings s) (stdout s) (stderr s) (exit_code s).
Definition set_isConnected v s := mkState (url s) (options s) (ws s) (messageQueue s) (reconnectAttempts s) v (heartbeatTimer s) (reconnectTimer s) (rl_closed s) (rl_listening s) (timers s) (next_timer s) (wire s) (pings s) (stdout s) (stderr s) (exit_code s).
Definition set_heartbeatTimer v s := mkState (url s) (options s) (ws s) (messageQueue s) (reconnectAttempts s) (isConnected s) v (reconnectTimer s) (rl_closed s) (rl_listening s) (timers s) (next_timer s) (wire s) (pings s) (stdout s) (stderr s) (exit_code s).
Definition set_reconnectTimer v s := mkState (url s) (options s) (ws s) (messageQueue s) (reconnectAttempts s) (isConnected s) (heartbeatTimer s) v (rl_closed s) (rl_listening s) (timers s) (next_timer s) (wire s) (pings s) (stdout s) (stderr s) (exit_code s).
Definition set_rl_closed v s := mkState (url s) (options s) (ws s) (messageQueue s) (reconnectAttempts s) (isConnected s) (heartbeatTimer s) (reconnectTimer s) v (rl_listening s) (timers s) (next_timer s) (wire s) (pings s) (stdout s) (stderr s) (exit_code s).
Definition set_rl_listening v s := mkState (url s) (options s) (ws s) (messageQueue s) (reconnectAttempts s) (isConnected s) (heartbeatTimer s) (reconnectTimer s) (rl_closed s) v (timers s) (next_timer s) (wire s) (pings s) (stdout s) (stderr s) (exit_code s).
Definition set_timers v s := mkState (url s) (options s) (ws s) (messageQueue s) (reconnectAttempts s) (isConnected s) (heartbeatTimer s) (reconnectTimer s) (rl_closed s) (rl_listening s) v (next_timer s) (wire s) (pings s) (stdout s) (stderr s) (exit_code s).
Definition set_next_timer v s := mkState (url s) (options s) (ws s) (messageQueue s) (reconnectAttempts s) (isConnected s) (heartbeatTimer s) (reconnectTimer s) (rl_closed s) (rl_listening s) (timers s) v (wire s) (pings s) (stdout s) (stderr s) (exit_code s).
Definition set_wire v s := mkState (url s) (options s) (ws s) (messageQueue s) (reconnectAttempts s) (isConnected s) (heartbeatTimer s) (reconnectTimer s) (rl_closed s) (rl_listening s) (timers s) (next_timer s) v (pings s) (stdout s) (stderr s) (exit_code s).
Definition set_pings v s := mkState (url s) (options s) (ws s) (messageQueue s) (reconnectAttempts s) (isConnected s) (heartbeatTimer s) (reconnectTimer s) (rl_closed s) (rl_listening s) (timers s) (next_timer s) (wire s) v (stdout s) (stderr s) (exit_code s).
Definition set_stdout v s := mkState (url s) (options s) (ws s) (messageQueue s) (reconnectAttempts s) (isConnected s) (heartbeatTimer s) (reconnectTimer s) (rl_closed s) (rl_listening s) (timers s) (next_timer s) (wire s) (pings s) v (stderr s) (exit_code s).
Definition set_stderr v s := mkState (url s) (options s) (ws s) (messageQueue s) (reconnectAttempts s) (isConnected s) (heartbeatTimer s) (reconnectTimer s) (rl_closed s) (rl_listening s) (timers s) (next_timer s) (wire s) (pings s) (stdout s) v (exit_code s).
Definition set_exit_code v s := mkState (url s) (options s) (ws s) (messageQueue s) (reconnectAttempts s) (isConnected s) (heartbeatTimer s) (reconnectTimer s) (rl_closed s) (rl_listening s) (timers s) (next_timer s) (wire s) (pings s) (stdout s) (stderr s) v.

(** ** Runtime primitives *)

(** [setTimeout] / [setInterval]: arm a timer, return its handle. *)
Definition arm (k : TimerKind) (delay : Q) (s : State) : nat * State :=
  let id := next_timer s in
  (id, set_next_timer (S id) (set_timers (timers s ++ [mkTimer id k delay]) s)).

(** [clearTimeout] / [clearInterval]: the timer with that handle, if still
    armed, is taken off the list. *)
Definition disarm (id : nat) (s : State) : State :=
  set_timers (remove_timer id (timers s)) s.


(** [process.exit(c)]: nothing runs afterwards. *)
Definition process_exit (c : Z) (s : State) : State :=
  match exit_code s with
  | None => set_exit_code (Some c) s
  | Some _ => s
  end.

(** [this.ws && this.ws.readyState === WebSocket.OPEN] *)
Definition ws_open (s : State) : bool :=
  match ws s with
  | Some w => ReadyState_eqb (readyState w) OPEN
  | None => false
  end.

(** ** Methods of [MCPWebSocketBridge] *)

(** The constructor (70-97); it throws when the url is missing (empty). *)
Definition new_bridge (u : string) (o : UserOptions) (env : Env) : option State :=
  if String.eqb u EmptyString then None
  else Some {| url := u; options := build_options o env;
               ws := None; messageQueue := []; reconnectAttempts := 0;
               isConnected := false; heartbeatTimer := None;
               reconnectTimer := None;      (* never assigned: undefined *)
               rl_closed := false; rl_listening := false;
               timers := []; next_timer := 0;
               wire := []; pings := 0; stdout := []; stderr := [];
               exit_code := None |}.

(** [log] (99-103): a line on stderr, only when [options.debug] is set. *)
Definition log (l : LogMsg) (s : State) : State :=
  if debug (options s) then set_stderr (stderr s ++ [l]) s else s.

(** The timeout computed by [scheduleReconnect] (193-196), as the number
    the expression denotes; see the note on numbers above. *)
Definition reconnect_timeout (o : Options) (attempts : nat) : Q :=
  Qmin (reconnectInterval o * reconnectDecay o ^ Z.of_nat attempts)
       (maxReconnectInterval o).

(** [scheduleReconnect] (188-205). *)
Definition scheduleReconnect (s : State) : State :=
  match reconnectTimer s with
  | Some _ => s
  | None =>
      let timeout := reconnect_timeout (options s) (reconnectAttempts s) in
      let s := log (Scheduling_reconnect timeout (reconnectAttempts s + 1)) s in
      let (id, s) := arm ReconnectTimeout timeout s in
      set_reconnectTimer (Some id) s
  end.

(** [startHeartbeat] (207-214): no test of [this.heartbeatTimer]. *)
Definition startHeartbeat (s : State) : State :=
  let (id, s) := arm HeartbeatInterval (heartbeatInterval (options s)) s in
  set_heartbeatTimer (Some id) s.

(** [stopHeartbeat] (216-221). *)
Definition stopHeartbeat (s : State) : State :=
  match heartbeatTimer s with
  | Some id => set_heartbeatTimer None (disarm id s)
  | None => s
  end.

(** [sendToWebSocket] (223-230). *)
Definition sendToWebSocket (message : Json) (s : State) : State :=
  if isConnected s && ws_open s then
    set_wire (wire s ++ [JSON_stringify message]) s
  else
    let s := log Not_connected_queuing s in
    set_messageQueue (messageQueue s ++ [message]) s.

(** [sendToStdout] (232-234). *)
Definition sendToStdout (message : Json) (s : State) : State :=
  set_stdout (stdout s ++ [JSON_stringify message]) s.

(** One turn of the body of the [while] loop of [flushMessageQueue]
    (238-240): shift, log, [sendToWebSocket]. *)
Definition flush_body (s : State) : State :=
  match messageQueue s with
  | [] => s
  | message :: rest =>
      let s := set_messageQueue rest s in
      let s := log (Sending_queued message) s in
      sendToWebSocket message s
  end.

(** The loop guard [this.messageQueue.length > 0 && this.isConnected]. *)
Definition flush_guard (s : State) : bool :=
  negb (Nat.eqb (List.length (messageQueue s)) 0) && isConnected s.

(** [flushMessageQueue] (236-242); [None] when [fuel] iterations were not
    enough. *)
Fixpoint flushMessageQueue (fuel : nat) (s : State) : option State :=
  if flush_guard s then
    match fuel with
    | O => None
    | S fuel' => flushMessageQueue fuel' (flush_body s)
    end
  else Some s.

(** [connect] (140-186): [ctor_ok] tells whether [new WebSocket(url, {headers})]
    returns (the socket then starts CONNECTING, with the five listeners
    attached) or throws. *)
Definition connect (ctor_ok : bool) (s : State) : State :=
  let headers := match token (options s) with
                 | Some EmptyString | None => None
                 | Some t => Some ("Bearer " ++ t)%string
                 end in
  if ctor_ok then set_ws (Some (mkWebSocket (url s) headers CONNECTING)) s
  else scheduleReconnect (log Failed_to_create_WebSocket s).

(** [this.ws.close()] under [if (this.ws)]. *)
Definition close_ws (s : State) : State :=
  match ws s with
  | Some w => set_ws (Some (WebSocket_close w)) s
  | None => s
  end.

(** [this.rl.close()]: readline sets its closed flag and emits 'close' once;
    [on_close] is the bridge's listener, attached by [setupStdioHandler]. *)
Definition rl_close (on_close : State -> State) (s : State) : State :=
  if rl_closed s then s
  else
    let s := set_rl_closed true s in
    if rl_listening s then on_close s else s.

(** [shutdown] (244-259) up to its call of [this.rl.close()]: log, clear the
    retry timer, stop the heartbeat, close the socket. *)
Definition shutdown_cancel (s : State) : State :=
  let s := log Shutting_down s in
  let s := match reconnectTimer s with
           | Some id => disarm id s
           | None => s
           end in
  let s := stopHeartbeat s in
  close_ws s.

(** The body of [shutdown], given what its call of [this.rl.close()] does. *)
Definition shutdown_body (rl_close_call : State -> State) (s : State) : State :=
  let s := shutdown_cancel s in
  let s := rl_close_call s in
  process_exit 0 s.

(** [shutdown] closes the reader, whose 'close' listener calls [shutdown]
    again; [depth] bounds that nesting.  The closed flag stops it after one
    level ([shutdown_depth] below), so [shutdown] is the unrolling at 1. *)
Fixpoint shutdown_n (depth : nat) (s : State) : State :=
  match depth with
  | O => shutdown_body (rl_close (fun s => s)) s
  | S d => shutdown_body (rl_close (fun s => shutdown_n d (log Stdin_closed s))) s
  end.

Definition shutdown : State -> State := shutdown_n 1.

(** [setupStdioHandler] (113-138) attaches the listeners on the reader and
    on the two signals; they are [on_line], [on_rl_close], [on_signal]. *)
Definition setupStdioHandler (s : State) : State := set_rl_listening true s.

(** [start] (105-111). *)
Definition start (ctor_ok : bool) (s : State) : State :=
  let s := log Starting_bridge s in
  let s := log (Connecting_to (url s)) s in
  let s := setupStdioHandler s in
  connect ctor_ok s.

(** ** Listeners *)

(** [rl.on('line')] (114-122) *)
Definition on_line (line : string) (s : State) : State :=
  match JSON_parse line with
  | Some message => sendToWebSocket message (log (Received_from_stdin message) s)
  | None => log (Failed_to_parse_stdin line) s
  end.

(** [rl.on('close')] (124-127) *)
Definition on_rl_close (s : State) : State := shutdown (log Stdin_closed s).

(** [process.on('SIGINT')], [process.on('SIGTERM')] (129-137) *)
Definition on_signal (sig : Signal) (s : State) : State :=
  shutdown (log (Received_signal sig) s).

(** [ws.on('open')] (149-155) *)
Definition on_open (fuel : nat) (s : State) : option State :=
  let s := log WebSocket_connected s in
  let s := set_isConnected true s in
  let s := set_reconnectAttempts 0 s in
  let s := startHeartbeat s in
  flushMessageQueue fuel s.

(** [ws.on('message')] (157-165) *)
Definition on_message (data : string) (s : State) : State :=
  match JSON_parse data with
  | Some message => sendToStdout message (log (Received_from_WebSocket message) s)
  | None => log (Failed_to_parse_WebSocket data) s
  end.

(** [ws.on('error')] (167-169) *)
Definition on_error (s : State) : State := log WebSocket_error s.

(** [ws.on('close')] (171-176) *)
Definition on_close (s : State) : State :=
  let s := log WebSocket_closed s in
  let s := set_isConnected false s in
  let s := stopHeartbeat s in
  scheduleReconnect s.

(** [ws.on('pong')] (178-180) *)
Definition on_pong (s : State) : State := log Received_pong s.

(** The callback given to [setTimeout] in [scheduleReconnect] (200-204). *)
Definition reconnect_callback (ctor_ok : bool) (s : State) : State :=
  let s := set_reconnectTimer None s in
  let s := set_reconnectAttempts (reconnectAttempts s + 1) s in
  connect ctor_ok s.

(** The callback given to [setInterval] in [startHeartbeat] (208-213). *)
Definition heartbeat_callback (s : State) : State :=
  if ws_open s then set_pings (pings s + 1) (log Sending_ping s) else s.

(** ** The event loop

    One event per turn.  What the environment may do is what the [ws] library
    and the runtime do: a socket emits 'open' only while CONNECTING (and is
    OPEN when its listener runs), emits 'close' once, as its last event (and
    is CLOSED when the listener runs); the peer or a failed handshake can
    move a socket to CLOSING before its 'close'; a timer fires only while it
    is armed, a timeout once and an interval again and again; input and end
    of input arrive only while the reader is open; nothing runs after
    [process.exit].  [start] is called once, on a fresh bridge. *)

Inductive Event :=
| EvLine (line : string)
| EvStdinEnd
| EvSignal (sig : Signal)
| EvWsOpen
| EvWsMessage (data : string)
| EvWsError
| EvWsClosing
| EvWsClose
| EvWsPong
| EvTimer (id : nat) (ctor_ok : bool).

Definition find_timer (id : nat) (s : State) : option Timer :=
  find (fun t => Nat.eqb (timer_id t) id) (timers s).

Definition ws_state (s : State) : option ReadyState :=
  match ws s with
  | Some w => Some (readyState w)
  | None => None
  end.

Definition set_readyState (r : ReadyState) (s : State) : State :=
  match ws s with
  | Some w => set_ws (Some (WebSocket_set_readyState r w)) s
  | None => s
  end.

Definition enabled (e : Event) (s : State) : bool :=
  match e with
  | EvLine _ | EvStdinEnd => rl_listening s && negb (rl_closed s)
  | EvSignal _ => rl_listening s
  | EvWsOpen =>
      match ws_state s with Some CONNECTING => true | _ => false end
  | EvWsMessage _ =>
      match ws_state s with Some OPEN | Some CLOSING => true | _ => false end
  | EvWsError | EvWsClose =>
      match ws_state s with Some CLOSED | None => false | _ => true end
  | EvWsClosing =>
      match ws_state s with Some CONNECTING | Some OPEN => true | _ => false end
  | EvWsPong =>
      match ws_state s with Some OPEN => true | _ => false end
  | EvTimer id _ =>
      match find_timer id s with Some _ => true | None => false end
  end.

(** What one turn does; [None] when the listener needs more than [fuel]
    iterations of the drain loop. *)
Definition turn (fuel : nat) (e : Event) (s : State) : option State :=
  match e with
  | EvLine line => Some (on_line line s)
  | EvStdinEnd => Some (rl_close on_rl_close s)
  | EvSignal sig => Some (on_signal sig s)
  | EvWsOpen => on_open fuel (set_readyState OPEN s)
  | EvWsMessage data => Some (on_message data s)
  | EvWsError => Some (on_error s)
  | EvWsClosing => Some (set_readyState CLOSING s)
  | EvWsClose => Some (on_close (set_readyState CLOSED s))
  | EvWsPong => Some (on_pong s)
  | EvTimer id ctor_ok =>
      match find_timer id s with
      | Some t =>
          match timer_kind t with
          | ReconnectTimeout => Some (reconnect_callback ctor_ok (disarm id s))
          | HeartbeatInterval => Some (heartbeat_callback s)
          end
      | None => Some s
      end
  end.

Inductive step : State -> Event -> State -> Prop :=
| step_turn : forall s e fuel s',
    exit_code s = None ->
    enabled e s = true ->
    turn fuel e s = Some s' ->
    step s e s'.

(** Executions: the constructor, [start], then any number of turns. *)
Inductive reachable : State -> Prop :=
| reachable_start : forall u o env ctor_ok s0,
    new_bridge u o env = Some s0 ->
    reachable (start ctor_ok s0)
| reachable_step : forall s e s',
    reachable s -> step s e s' -> reachable s'.

(** The attempt counter after a turn: 0 after 'open', one more after a retry
    timer fired, unchanged otherwise. *)
Definition attempts_after (e : Event) (s : State) : nat :=
  match e with
  | EvWsOpen => 0
  | EvTimer id _ =>
      match find_timer id s with
      | Some t =>
          match timer_kind t with
          | ReconnectTimeout => reconnectAttempts s + 1
          | HeartbeatInterval => reconnectAttempts s
          end
      | None => reconnectAttempts s
      end
  | _ => reconnectAttempts s
  end.

Inductive steps : State -> list Event -> State -> Prop :=
| steps_nil : forall s, steps s [] s
| steps_cons : forall s e s' es s'',
    step s e s' -> steps s' es s'' -> steps s (e :: es) s''.

(** Run a list of events from a state, with enough fuel for each drain;
    an event that is not enabled stops the run. *)
Fixpoint run (es : list Event) (s : State) : option State :=
  match es with
  | [] => Some s
  | e :: es' =>
      if enabled e s then
        match exit_code s with
        | None =>
            match turn (List.length (messageQueue s)) e s with
            | Some s' => run es' s'
            | None => None
            end
        | Some _ => None
        end
      else None
  end.

(** ** Invariants of executions *)

(** The armed timers that run a given callback. *)
Definition armed (k : TimerKind) (s : State) : list Timer :=
  filter (fun t => TimerKind_eqb (timer_kind t) k) (timers s).

Definition live (w : option ReadyState) : bool :=
  match w with
  | Some CONNECTING | Some OPEN | Some CLOSING => true
  | Some CLOSED | None => false
  end.

Definition up (w : option ReadyState) : bool :=
  match w with
  | Some OPEN | Some CLOSING => true
  | _ => false
  end.

(** The armed timers [tm] against the two handle fields: handles are fresh
    and distinct, and every armed timer is the one the handle field of its
    kind names. *)
Definition timers_ok (tm : list Timer) (next : nat) (hb rc : option nat) : Prop :=
  (forall t, In t tm -> timer_id t < next) /\
  NoDup (map timer_id tm) /\
  (forall t, In t tm -> timer_kind t = ReconnectTimeout -> rc = Some (timer_id t)) /\
  (forall t, In t tm -> timer_kind t = HeartbeatInterval -> hb = Some (timer_id t)).

(** While the process runs: a retry is pending only while no socket is live,
    the handle of a pending retry names an armed timer, and the connected
    flag and the heartbeat are on only between 'open' and 'close'. *)
Definition link_ok (ex : option Z) (w : option ReadyState) (conn : bool)
    (hb rc : option nat) (tm : list Timer) : Prop :=
  ex = None ->
  (rc <> None -> live w = false) /\
  (forall id, rc = Some id -> exists d, In (mkTimer id ReconnectTimeout d) tm) /\
  (conn = true \/ hb <> None -> up w = true).

Definition Inv (s : State) : Prop :=
  timers_ok (timers s) (next_timer s) (heartbeatTimer s) (reconnectTimer s) /\
  link_ok (exit_code s) (ws_state s) (isConnected s)
          (heartbeatTimer s) (reconnectTimer s) (timers s).

(** The fields a drain or a [sendToWebSocket] leaves alone: everything but
    the queue, the wire and the log. *)
Record same_control (s s' : State) : Prop := mk_same_control {
  sc_url : url s' = url s;
  sc_options : options s' = options s;
  sc_ws : ws s' = ws s;
  sc_reconnectAttempts : reconnectAttempts s' = reconnectAttempts s;
  sc_isConnected : isConnected s' = isConnected s;
  sc_heartbeatTimer : heartbeatTimer s' = heartbeatTimer s;
  sc_reconnectTimer : reconnectTimer s' = reconnectTimer s;
  sc_rl_closed : rl_closed s' = rl_closed s;
  sc_rl_listening : rl_listening s' = rl_listening s;
  sc_timers : timers s' = timers s;
  sc_next_timer : next_timer s' = next_timer s;
  sc_pings : pings s' = pings s;
  sc_stdout : stdout s' = stdout s;
  sc_exit_code : exit_code s' = exit_code s
}.

(** The state [p] in which the 'open' listener of [s] starts its drain. *)
Record opened (s p : State) : Prop := mk_opened {
  op_isConnected : isConnected p = true;
  op_ws_open : ws_open p = true;
  op_ws_state : ws_state p = Some OPEN;
  op_reconnectAttempts : reconnectAttempts p = 0;
  op_messageQueue : messageQueue p = messageQueue s;
  op_wire : wire p = wire s;
  op_heartbeatTimer : heartbeatTimer p = Some (next_timer s);
  op_timers : timers p = timers s ++
    [mkTimer (next_timer s) HeartbeatInterval (heartbeatInterval (options s))];
  op_next_timer : next_timer p = S (next_timer s);
  op_reconnectTimer : reconnectTimer p = reconnectTimer s;
  op_exit_code : exit_code p = exit_code s;
  op_options : options p = options s
}.

(** What [shutdown] leaves behind. *)
Record shutdown_effect (s s' : State) : Prop := mk_shutdown_effect {
  sd_exit_code : exit_code s' = Some 0%Z;
  sd_rl_closed : rl_closed s' = true;
  sd_ws : ws s' = option_map WebSocket_close (ws s);
  sd_heartbeatTimer : heartbeatTimer s' = None;
  sd_reconnectTimer : reconnectTimer s' = reconnectTimer s;
  sd_timers : forall t, In t (timers s') <->
     In t (timers s) /\ reconnectTimer s <> Some (timer_id t) /\
     heartbeatTimer s <> Some (timer_id t);
  sd_messageQueue : messageQueue s' = messageQueue s;
  sd_wire : wire s' = wire s;
  sd_stdout : stdout s' = stdout s;
  sd_pings : pings s' = pings s;
  sd_options : options s' = options s;
  sd_reconnectAttempts : reconnectAttempts s' = reconnectAttempts s
}.

End Bridge.

(** ** The command line

    [parseArgs] (262-317) and the main block (319-336). *)

(** The object [parseArgs] fills: [url] and [token] absent or a string,
    [debug] absent or [true]. *)
Record CliOptions := mkCliOptions {
  cli_url : option string;
  cli_token : option string;
  cli_debug : bool
}.

Definition no_cli_options : CliOptions := mkCliOptions None None false.

(** What the command line prints before [process.exit]: the help text on
    stdout, or one of the error messages on stderr. *)
Inductive CliOutput :=
| Help_text
| Unknown_option (arg : string)
| Invalid_argument (arg : string)
| Url_required.

Inductive CliResult :=
| Parsed (o : CliOptions)
| Exit (code : Z) (out : CliOutput).

Definition is_token_flag (a : string) : bool :=
  String.eqb a "--token" || String.eqb a "-t".

Definition is_debug_flag (a : string) : bool :=
  String.eqb a "--debug" || String.eqb a "-d".

Definition is_help_flag (a : string) : bool :=
  String.eqb a "--help" || String.eqb a "-h".

(** [a.startsWith('ws://') || a.startsWith('wss://')] *)
Definition is_ws_url (a : string) : bool :=
  String.prefix "ws://" a || String.prefix "wss://" a.

(** The [for] loop of [parseArgs] from position [i], [args] being what is
    left from [args[i]] on and [o] the options filled so far.  [--token]
    takes [args[++i]], whatever it is ([undefined] past the end), and the
    loop goes on after it. *)
Fixpoint parseArgs_from (o : CliOptions) (args : list string) : CliResult :=
  match args with
  | [] => Parsed o
  | a :: rest =>
      if is_token_flag a then
        match rest with
        | x :: rest' =>
            parseArgs_from (mkCliOptions (cli_url o) (Some x) (cli_debug o)) rest'
        | [] => Parsed (mkCliOptions (cli_url o) None (cli_debug o))
        end
      else if is_debug_flag a then
        parseArgs_from (mkCliOptions (cli_url o) (cli_token o) true) rest
      else if is_help_flag a then Exit 0 Help_text
      else if is_ws_url a then
        parseArgs_from (mkCliOptions (Some a) (cli_token o) (cli_debug o)) rest
      else if String.prefix "-" a then Exit 1 (Unknown_option a)
      else Exit 1 (Invalid_argument a)
  end.

(** [parseArgs()], [args] being [process.argv.slice(2)]. *)
Definition parseArgs (args : list string) : CliResult :=
  parseArgs_from no_cli_options args.

(** [const { url, ...bridgeOptions } = options]: what reaches the
    constructor besides the url. *)
Definition bridgeOptions (o : CliOptions) : UserOptions :=
  mkUserOptions (cli_token o) None None None None
                (if cli_debug o then Some true else None).

Section Main.

Context {codec : JsonCodec}.

(** How the main block ends: the bridge is started, or the process exits,
    or the constructor throws. *)
Inductive MainResult :=
| Started (s : State)
| Exited (code : Z) (out : CliOutput)
| Threw.

(** The main block (319-336). *)
Definition main (args : list string) (env : Env) (ctor_ok : bool) : MainResult :=
  match parseArgs args with
  | Exit code out => Exited code out
  | Parsed o =>
      match cli_url o with
      | None | Some EmptyString => Exited 1 Url_required     (* !options.url *)
      | Some u =>
          match new_bridge u (bridgeOptions o) env with
          | Some bridge => Started (start ctor_ok bridge)
          | None => Threw
          end
      end
  end.

(** ** What an execution shows from outside *)

(** The messages decoded from the lines of input among the events. *)
Definition decoded_lines (es : list Event) : list Json :=
  flat_map (fun e => match e with
                     | EvLine line => match JSON_parse line with
                                      | Some m => [m]
                                      | None => []
                                      end
                     | _ => []
                     end) es.

(** The messages decoded from the frames the socket delivered. *)
Definition decoded_frames (es : list Event) : list Json :=
  flat_map (fun e => match e with
                     | EvWsMessage data => match JSON_parse data with
                                           | Some m => [m]
                                           | None => []
                                           end
                     | _ => []
                     end) es.

(** Everything accepted from the input so far, as text: what was written to
    the socket followed by what is still queued. *)
Definition outbound (s : State) : list string :=
  wire s ++ map JSON_stringify (messageQueue s).

(** The [headers] object [connect] builds (141-144). *)
Definition auth_header (o : Options) : option string :=
  match token o with
  | Some EmptyString | None => None
  | Some t => Some ("Bearer " ++ t)%string
  end.

(** Further invariants of executions: while the bridge can write to the
    socket the queue is empty; the socket was built from the configured url
    and token; without a live socket a retry is pending; the heartbeat is
    armed exactly while the connected flag is on. *)
Definition queue_ok (s : State) : Prop :=
  isConnected s = true -> ws_open s = true -> messageQueue s = [].

Definition socket_ok (s : State) : Prop :=
  forall w, ws s = Some w ->
    ws_url w = url s /\ ws_authorization w = auth_header (options s).

Definition retry_ok (s : State) : Prop :=
  exit_code s = None -> live (ws_state s) = false ->
  exists id, reconnectTimer s = Some id /\
    In (mkTimer id ReconnectTimeout
                (reconnect_timeout (options s) (reconnectAttempts s)))
       (timers s).

Definition heartbeat_ok (s : State) : Prop :=
  exit_code s = None ->
  (isConnected s = true <-> heartbeatTimer s <> None) /\
  (forall id, heartbeatTimer s = Some id ->
     In (mkTimer id HeartbeatInterval (heartbeatInterval (options s)))
        (timers s)).

(** The fields that decide what the bridge does next. *)
Definition control (s : State) :=
  (url s, options s, ws s, reconnectAttempts s, isConnected s,
   heartbeatTimer s, reconnectTimer s, timers s, exit_code s).

(** The turns that leave them alone: input, frames, errors and pongs, and
    the heartbeat. *)
Definition quiet (e : Event) (s : State) : bool :=
  match e with
  | EvLine _ | EvWsMessage _ | EvWsError | EvWsPong => true
  | EvTimer id _ =>
      match find_timer id s with
      | Some t => TimerKind_eqb (timer_kind t) HeartbeatInterval
      | None => true
      end
  | _ => false
  end.

(** The events whose listener calls [shutdown]. *)
Definition ends_process (e : Event) : bool :=
  match e with
  | EvStdinEnd | EvSignal _ => true
  | _ => false
  end.

(** The state a run ends in (the first state, when the run stops short). *)
Definition after (es : list Event) (s0 : State) : State :=
  match run es s0 with
  | Some s => s
  | None => s0
  end.

(** Executions with their events: the constructor, [start], then the turns
    of [es]. *)
Definition execution (es : list Event) (s : State) : Prop :=
  exists u o env ctor_ok s0,
    new_bridge u o env = Some s0 /\ steps (start ctor_ok s0) es s.

End Main.

(** ** A concrete codec

    A reader and printer for a fragment of JSON (no string escapes, integer
    numbers), to run the model on examples; the theorems hold for any codec. *)

Module MiniJson.

#[warnings="-register-all"]
Inductive json :=
| JNull
| JBool (b : bool)
| JNum (lexeme : string)
| JStr (s : string)
| JArr (items : list json)
| JObj (members : list (string * json)).

Definition dquote : ascii := ascii_of_nat 34.

Definition is_ws (c : ascii) : bool :=
  let n := nat_of_ascii c in
  Nat.eqb n 32 || Nat.eqb n 9 || Nat.eqb n 10 || Nat.eqb n 13.

Definition is_digit (c : ascii) : bool :=
  let n := nat_of_ascii c in Nat.leb 48 n && Nat.leb n 57.

Fixpoint skip_ws (s : string) : string :=
  match s with
  | String c r => if is_ws c then skip_ws r else s
  | EmptyString => s
  end.

Fixpoint strip_prefix (p s : string) : option string :=
  match p, s with
  | EmptyString, _ => Some s
  | String a p', String b s' => if Ascii.eqb a b then strip_prefix p' s' else None
  | String _ _, EmptyString => None
  end.

Fixpoint take_digits (s : string) : string * string :=
  match s with
  | String c r =>
      if is_digit c then let (d, rest) := take_digits r in (String c d, rest)
      else (EmptyString, s)
  | EmptyString => (EmptyString, s)
  end.

(** The characters of a string literal up to its closing quote. *)
Fixpoint take_chars (s : string) : option (string * string) :=
  match s with
  | String c r =>
      if Ascii.eqb c dquote then Some (EmptyString, r)
      else if Ascii.eqb c "\"%char || Nat.ltb (nat_of_ascii c) 32 then None
      else match take_chars r with
           | Some (cs, rest) => Some (String c cs, rest)
           | None => None
           end
  | EmptyString => None
  end.

Definition parse_number (s : string) : option (json * string) :=
  let (sign, r) := match s with
                   | String "-"%char r => ("-", r)
                   | _ => (EmptyString, s)
                   end in
  match take_digits r with
  | (EmptyString, _) => None
  | (String "0"%char (String _ _), _) => None      (* no leading zero *)
  | (d, rest) => Some (JNum (sign ++ d)%string, rest)
  end.

Fixpoint parse_value (fuel : nat) (s : string) : option (json * string) :=
  match fuel with
  | O => None
  | S f =>
      match skip_ws s with
      | String "["%char r =>
          match skip_ws r with
          | String "]"%char r' => Some (JArr [], r')
          | _ => match parse_items f r with
                 | Some (vs, r') => Some (JArr vs, r')
                 | None => None
                 end
          end
      | String "{"%char r =>
          match skip_ws r with
          | String "}"%char r' => Some (JObj [], r')
          | _ => match parse_members f r with
                 | Some (ms, r') => Some (JObj ms, r')
                 | None => None
                 end
          end
      | String c r as s' =>
          if Ascii.eqb c dquote then
            match take_chars r with
            | Some (cs, r') => Some (JStr cs, r')
            | None => None
            end
          else
            match strip_prefix "null" s', strip_prefix "true" s',
                  strip_prefix "false" s' with
            | Some r', _, _ => Some (JNull, r')
            | _, Some r', _ => Some (JBool true, r')
            | _, _, Some r' => Some (JBool false, r')
            | _, _, _ => parse_number s'
            end
      | EmptyString => None
      end
  end
with parse_items (fuel : nat) (s : string) : option (list json * string) :=
  match fuel with
  | O => None
  | S f =>
      match parse_value f s with
      | Some (v, r) =>
          match skip_ws r with
          | String ","%char r' =>
              match parse_items f r' with
              | Some (vs, r'') => Some (v :: vs, r'')
              | None => None
              end
          | String "]"%char r' => Some ([v], r')
          | _ => None
          end
      | None => None
      end
  end
with parse_members (fuel : nat) (s : string)
  : option (list (string * json) * string) :=
  match fuel with
  | O => None
  | S f =>
      match skip_ws s with
      | String c r =>
          if Ascii.eqb c dquote then
            match take_chars r with
            | Some (k, r1) =>
                match skip_ws r1 with
                | String ":"%char r2 =>
                    match parse_value f r2 with
                    | Some (v, r3) =>
                        match skip_ws r3 with
                        | String ","%char r4 =>
                            match parse_members f r4 with
                            | Some (ms, r5) => Some ((k, v) :: ms, r5)
                            | None => None
                            end
                        | String "}"%char r4 => Some ([(k, v)], r4)
                        | _ => None
                        end
                    | None => None
                    end
                | _ => None
                end
            | None => None
            end
          else None
      | EmptyString => None
      end
  end.

Definition parse (s : string) : option json :=
  match parse_value (2 * String.length s + 2) s with
  | Some (v, rest) =>
      match skip_ws rest with
      | EmptyString => Some v
      | _ => None
      end
  | None => None
  end.

Definition quote (s : string) : string :=
  String dquote (s ++ String dquote EmptyString)%string.

Fixpoint stringify (v : json) : string :=
  match v with
  | JNull => "null"
  | JBool true => "true"
  | JBool false => "false"
  | JNum d => d
  | JStr s => quote s
  | JArr items =>
      ("[" ++ String.concat "," (map stringify items) ++ "]")%string
  | JObj members =>
      ("{" ++ String.concat ","
                (map (fun kv => quote (fst kv) ++ ":" ++ stringify (snd kv)) members)
           ++ "}")%string
  end.

#[global] Instance codec : JsonCodec :=
  {| Json := json; JSON_parse := parse; JSON_stringify := stringify |}.

End MiniJson.

Definition request : MiniJson.json :=
  MiniJson.JObj [("jsonrpc", MiniJson.JStr "2.0"); ("id", MiniJson.JNum "1");
                 ("params", MiniJson.JArr [MiniJson.JBool true; MiniJson.JNull])].

(** Example states: a bridge for [ws://localhost:9999/mcp] with debug
    logging on, before and after [start]. *)
Definition debug_on : UserOptions :=
  mkUserOptions None None None None None (Some true).

Definition env0 : Env := mkEnv None None.

Definition the_url : string := "ws://localhost:9999/mcp".

Definition bridge0 : State :=
  {| url := the_url; options := build_options debug_on env0;
     ws := None; messageQueue := []; reconnectAttempts := 0;
     isConnected := false; heartbeatTimer := None; reconnectTimer := None;
     rl_closed := false; rl_listening := false;
     timers := []; next_timer := 0;
     wire := []; pings := 0; stdout := []; stderr := [];
     exit_code := None |}.

(** The same bridge without debug logging (the default). *)
Definition quiet0 : State :=
  {| url := the_url; options := build_options no_options env0;
     ws := None; messageQueue := []; reconnectAttempts := 0;
     isConnected := false; heartbeatTimer := None; reconnectTimer := None;
     rl_closed := false; rl_listening := false;
     timers := []; next_timer := 0;
     wire := []; pings := 0; stdout := []; stderr := [];
     exit_code := None |}.

(** Started, socket CONNECTING. *)
Definition connecting0 : State := start true bridge0.

(** Connected: the socket emitted 'open' and the queue was empty. *)
Definition connected0 : State :=
  match turn 1 EvWsOpen connecting0 with
  | Some s => s
  | None => connecting0
  end.

Definition msgA : Json := MiniJson.JNum "1".
Definition msgB : Json := MiniJson.JNum "2".
Definition msgC : Json := MiniJson.JNum "3".
Definition seven : Json := MiniJson.JNum "7".

(** The default bridge after two failed attempts, no retry pending. *)
Definition attempt2 : State := set_reconnectAttempts 2 quiet0.

(** The socket starts closing and two lines arrive before its 'close':
    connected flag on, socket CLOSING, two messages queued. *)
Definition stuck0 : State :=
  match run [EvWsClosing; EvLine "1"; EvLine "2"] connected0 with
  | Some s => s
  | None => connected0
  end.

(** The default bridge (no debug logging), started and reading input. *)
Definition quiet_started : State := start true quiet0.

(** No server: the constructor succeeds, the socket closes without opening,
    and each retry does the same.  The delays are those of the repository's
    reconnection test. *)
Definition refused : list Event :=
  [EvWsError; EvWsClose; EvTimer 0 true; EvWsError; EvWsClose;
   EvTimer 1 true; EvWsError; EvWsClose; EvTimer 2 true; EvWsError; EvWsClose].

(** The [Scheduling reconnect in <d>ms (attempt <n>)] lines of the log. *)
Definition scheduled (s : State) : list (Q * nat) :=
  flat_map (fun l => match l with
                     | Scheduling_reconnect d n => [(Qred d, n)]
                     | _ => []
                     end) (stderr s).

(** A session of the default bridge: two lines (and one that does not
    decode) arrive before the socket opens; it opens; a frame and a broken
    frame arrive; the heartbeat fires; a third line arrives; the socket
    closes and the retry finds no server. *)
Definition session : list Event :=
  [EvLine "1"; EvLine "oops"; EvLine "2"; EvWsOpen; EvWsMessage "7";
   EvWsMessage "{"; EvTimer 0 true; EvLine "3"; EvWsClose; EvTimer 1 false].

Definition session_end : State := after session quiet_started.

(** The same session, ended by SIGTERM. *)
Definition session_killed : list Event := session ++ [EvSignal SIGTERM].

Definition session_killed_end : State := after session_killed quiet_started.

(** A bridge with a token, whose first socket closes and whose retry builds
    a second one. *)
Definition with_token : UserOptions :=
  mkUserOptions (Some "secret") None None None None None.

Definition token0 : State :=
  {| url := the_url; options := build_options with_token env0;
     ws := None; messageQueue := []; reconnectAttempts := 0;
     isConnected := false; heartbeatTimer := None; reconnectTimer := None;
     rl_closed := false; rl_listening := false;
     timers := []; next_timer := 0;
     wire := []; pings := 0; stdout := []; stderr := [];
     exit_code := None |}.

Definition second_socket : State :=
  after [EvWsClose; EvTimer 0 true] (start true token0).

(** The connection is lost: the socket of [connected0] closed, a retry is
    pending.  Three messages are submitted; the first retry finds no
    server, a line arrives, the second retry builds a socket. *)
Definition lost0 : State := after [EvWsClose] connected0.

Definition lost_queued : State :=
  sendToWebSocket msgC (sendToWebSocket msgB (sendToWebSocket msgA lost0)).

Definition retries : list Event :=
  [EvTimer 1 false; EvLine "4"; EvTimer 2 true].

Definition retried : State := after retries lost_queued.

(** ** Facts about the methods *)

Section Facts.

Context {codec : JsonCodec}.

Ltac unfold_methods :=
  unfold on_line, on_message, on_error, on_pong, on_close, on_rl_close,
    on_signal, reconnect_callback, heartbeat_callback, start,
    setupStdioHandler, connect, close_ws, scheduleReconnect, startHeartbeat,
    stopHeartbeat, sendToStdout, flush_body, sendToWebSocket, process_exit,
    set_readyState, arm, disarm, log, ws_open, ws_state in *.

Lemma same_control_refl (s : State) : same_control s s.
Proof. constructor; reflexivity. Qed.

Lemma same_control_trans (s1 s2 s3 : State) :
  same_control s1 s2 -> same_control s2 s3 -> same_control s1 s3.
Proof.
  intros [] []; constructor; congruence.
Qed.

Lemma log_same_control l (s : State) : same_control s (log l s).
Proof.
  unfold log; destruct (debug (options s)); constructor; reflexivity.
Qed.

Lemma log_messageQueue l (s : State) : messageQueue (log l s) = messageQueue s.
Proof. unfold log; destruct (debug (options s)); reflexivity. Qed.

Lemma log_wire l (s : State) : wire (log l s) = wire s.
Proof. unfold log; destruct (debug (options s)); reflexivity. Qed.

Lemma log_stderr l (s : State) :
  stderr (log l s) = stderr s ++ (if debug (options s) then [l] else []).
Proof.
  unfold log; destruct (debug (options s)); simpl; auto using app_nil_r.
Qed.

Lemma same_control_ws_state (s s' : State) :
  same_control s s' -> ws_state s' = ws_state s.
Proof. intros H; unfold ws_state; rewrite (sc_ws _ _ H); reflexivity. Qed.

Lemma same_control_ws_open (s s' : State) :
  same_control s s' -> ws_open s' = ws_open s.
Proof. intros H; unfold ws_open; rewrite (sc_ws _ _ H); reflexivity. Qed.

Lemma log_ws_state l (s : State) : ws_state (log l s) = ws_state s.
Proof. apply same_control_ws_state, log_same_control. Qed.

Lemma log_exit_code l (s : State) : exit_code (log l s) = exit_code s.
Proof. apply sc_exit_code, log_same_control. Qed.

Lemma sendToWebSocket_same_control m (s : State) :
  same_control s (sendToWebSocket m s).
Proof.
  unfold sendToWebSocket, log.
  destruct (isConnected s && ws_open s), (debug (options s));
    constructor; reflexivity.
Qed.

(** The two branches of [sendToWebSocket]. *)
Lemma sendToWebSocket_ready m (s : State) :
  isConnected s = true -> ws_open s = true ->
  wire (sendToWebSocket m s) = wire s ++ [JSON_stringify m] /\
  messageQueue (sendToWebSocket m s) = messageQueue s /\
  stderr (sendToWebSocket m s) = stderr s.
Proof.
  intros Hc Ho; unfold sendToWebSocket; rewrite Hc, Ho; simpl; auto.
Qed.

Lemma sendToWebSocket_not_ready m (s : State) :
  isConnected s = false \/ ws_open s = false ->
  wire (sendToWebSocket m s) = wire s /\
  messageQueue (sendToWebSocket m s) = messageQueue s ++ [m] /\
  stderr (sendToWebSocket m s) =
    stderr s ++ (if debug (options s) then [Not_connected_queuing] else []).
Proof.
  intros H; unfold sendToWebSocket.
  assert (E : isConnected s && ws_open s = false)
    by (destruct H as [H | H]; rewrite H; auto using andb_false_r).
  rewrite E; simpl.
  rewrite log_wire, log_messageQueue, log_stderr; auto.
Qed.

Lemma not_ready_cases (s : State) :
  (isConnected s = true /\ ws_open s = true) \/
  (isConnected s = false \/ ws_open s = false).
Proof. destruct (isConnected s), (ws_open s); auto. Qed.

Lemma app_one_neq {A} (l : list A) (x : A) : l <> l ++ [x].
Proof.
  intros E; apply (f_equal (@List.length A)) in E.
  rewrite length_app in E; simpl in E; lia.
Qed.

(** *** The drain loop *)

Lemma flush_body_same_control (s : State) : same_control s (flush_body s).
Proof.
  unfold flush_body; destruct (messageQueue s) as [|m rest] eqn:E.
  - apply same_control_refl.
  - eapply same_control_trans; [ | apply sendToWebSocket_same_control ].
    eapply same_control_trans; [ | apply log_same_control ].
    constructor; reflexivity.
Qed.

(** A turn of the loop whose delivery succeeds. *)
Lemma flush_body_ready m rest (s : State) :
  messageQueue s = m :: rest -> isConnected s = true -> ws_open s = true ->
  messageQueue (flush_body s) = rest /\
  wire (flush_body s) = wire s ++ [JSON_stringify m].
Proof.
  intros Hq Hc Ho; unfold flush_body; rewrite Hq.
  set (s1 := log _ _).
  assert (Hc1 : isConnected s1 = true)
    by (subst s1; unfold log; simpl; destruct (debug (options s)); assumption).
  assert (Ho1 : ws_open s1 = true)
    by (subst s1; unfold log, ws_open in *; simpl;
        destruct (debug (options s)); assumption).
  destruct (sendToWebSocket_ready m s1 Hc1 Ho1) as (Hw & Hm & _).
  rewrite Hw, Hm; subst s1; rewrite log_wire, log_messageQueue; auto.
Qed.

(** A turn of the loop whose delivery fails: the socket is not open. *)
Lemma flush_body_not_ready m rest (s : State) :
  messageQueue s = m :: rest -> ws_open s = false ->
  messageQueue (flush_body s) = rest ++ [m] /\
  wire (flush_body s) = wire s.
Proof.
  intros Hq Ho; unfold flush_body; rewrite Hq.
  set (s1 := log _ _).
  assert (Ho1 : ws_open s1 = false)
    by (subst s1; unfold log, ws_open in *; simpl;
        destruct (debug (options s)); assumption).
  destruct (sendToWebSocket_not_ready m s1 (or_intror Ho1)) as (Hw & Hm & _).
  rewrite Hw, Hm; subst s1; rewrite log_wire, log_messageQueue; auto.
Qed.

Lemma flush_guard_cons m rest (s : State) :
  messageQueue s = m :: rest -> flush_guard s = isConnected s.
Proof. intros E; unfold flush_guard; rewrite E; reflexivity. Qed.

Lemma flush_guard_nil (s : State) :
  messageQueue s = [] -> flush_guard s = false.
Proof. intros E; unfold flush_guard; rewrite E; reflexivity. Qed.

Lemma flushMessageQueue_same_control fuel : forall (s s' : State),
  flushMessageQueue fuel s = Some s' -> same_control s s'.
Proof.
  induction fuel as [|fuel IH]; intros s s'; simpl;
    destruct (flush_guard s); try discriminate.
  - intros E; injection E as <-; apply same_control_refl.
  - intros E; eapply same_control_trans;
      [ apply flush_body_same_control | apply IH, E ].
  - intros E; injection E as <-; apply same_control_refl.
Qed.

(** With the socket open the drain delivers the whole queue, in order, in as
    many turns as it has messages. *)
Lemma flushMessageQueue_open : forall q fuel (s : State),
  messageQueue s = q -> isConnected s = true -> ws_open s = true ->
  List.length q <= fuel ->
  exists s', flushMessageQueue fuel s = Some s' /\
             messageQueue s' = [] /\
             wire s' = wire s ++ map JSON_stringify q /\
             same_control s s'.
Proof.
  induction q as [|m rest IH]; intros fuel s Hq Hc Ho Hf.
  - exists s. rewrite app_nil_r.
    destruct fuel; simpl; rewrite (flush_guard_nil _ Hq);
      auto using same_control_refl.
  - destruct fuel as [|fuel]; [simpl in Hf; lia|].
    simpl. rewrite (flush_guard_cons _ _ _ Hq), Hc.
    destruct (flush_body_ready _ _ _ Hq Hc Ho) as (Hq1 & Hw1).
    pose proof (flush_body_same_control s) as Hs.
    destruct (IH fuel (flush_body s) Hq1) as (s' & E & Hq' & Hw' & Hs').
    + rewrite (sc_isConnected _ _ Hs); assumption.
    + rewrite (same_control_ws_open _ _ Hs); assumption.
    + simpl in Hf; lia.
    + exists s'; split; [assumption|]; split; [assumption|]; split.
      * rewrite Hw', Hw1, <- app_assoc; reflexivity.
      * eapply same_control_trans; eassumption.
Qed.

(** With the connected flag on and the socket not open, the loop never ends:
    each turn moves the head of the queue to its tail. *)
Lemma flushMessageQueue_spins fuel : forall (s : State),
  isConnected s = true -> ws_open s = false -> messageQueue s <> [] ->
  flushMessageQueue fuel s = None.
Proof.
  induction fuel as [|fuel IH]; intros s Hc Ho Hq;
    destruct (messageQueue s) as [|m rest] eqn:E; try congruence; simpl;
    rewrite (flush_guard_cons _ _ _ E), Hc; auto.
  pose proof (flush_body_same_control s) as Hs.
  apply IH.
  - rewrite (sc_isConnected _ _ Hs); assumption.
  - rewrite (same_control_ws_open _ _ Hs); assumption.
  - destruct (flush_body_not_ready _ _ _ E Ho) as (-> & _).
    destruct rest; discriminate.
Qed.

(** More fuel never changes the result of a drain that ended. *)
Lemma flushMessageQueue_fuel fuel : forall fuel' (s s' : State),
  flushMessageQueue fuel s = Some s' -> fuel <= fuel' ->
  flushMessageQueue fuel' s = Some s'.
Proof.
  induction fuel as [|fuel IH]; intros fuel' s s'; simpl.
  - destruct (flush_guard s) eqn:G; try discriminate.
    intros E _; destruct fuel'; simpl; rewrite G; assumption.
  - destruct (flush_guard s) eqn:G.
    + intros E L; destruct fuel' as [|fuel']; [lia|].
      simpl; rewrite G; apply IH; [assumption | lia].
    + intros E _; destruct fuel'; simpl; rewrite G; assumption.
Qed.

(** *** Submitting a message *)

(** C4.  A message given to [sendToWebSocket] is appended to the queue if and
    only if, at that moment, the bridge is not connected or the socket cannot
    be written (it is absent or not OPEN); otherwise it is written to the
    socket at once and the queue is left as it was. *)
Theorem sendToWebSocket_queues_iff_not_ready : forall (m : Json) (s : State),
  (messageQueue (sendToWebSocket m s) = messageQueue s ++ [m]
   <-> (isConnected s = false \/ ws_open s = false)) /\
  (isConnected s = true /\ ws_open s = true ->
   wire (sendToWebSocket m s) = wire s ++ [JSON_stringify m] /\
   messageQueue (sendToWebSocket m s) = messageQueue s) /\
  (isConnected s = false \/ ws_open s = false ->
   wire (sendToWebSocket m s) = wire s).
Proof.
  intros m s; split; [split|split].
  - intros E. destruct (not_ready_cases s) as [[Hc Ho]|H]; [|assumption].
    destruct (sendToWebSocket_ready m s Hc Ho) as (_ & Hq & _).
    rewrite Hq in E. exfalso; exact (app_one_neq _ _ E).
  - intros H; apply (sendToWebSocket_not_ready m s H).
  - intros [Hc Ho]; destruct (sendToWebSocket_ready m s Hc Ho) as (? & ? & _); auto.
  - intros H; apply (sendToWebSocket_not_ready m s H).
Qed.

(** C10.  [sendToWebSocket] either writes the message to the socket or
    appends it to the queue, never both and never neither; so does a line of
    input that decodes, and so does a turn of the drain loop with the message
    it took off the queue.  With the connected flag on and the socket
    CLOSING the message is queued. *)
Theorem sendToWebSocket_writes_or_queues : forall (m : Json) (s : State),
  ((wire (sendToWebSocket m s) = wire s ++ [JSON_stringify m] /\
    messageQueue (sendToWebSocket m s) = messageQueue s) \/
   (wire (sendToWebSocket m s) = wire s /\
    messageQueue (sendToWebSocket m s) = messageQueue s ++ [m])) /\
  ~ (wire (sendToWebSocket m s) = wire s ++ [JSON_stringify m] /\
     messageQueue (sendToWebSocket m s) = messageQueue s ++ [m]) /\
  ~ (wire (sendToWebSocket m s) = wire s /\
     messageQueue (sendToWebSocket m s) = messageQueue s) /\
  (forall line, JSON_parse line = Some m ->
     (wire (on_line line s) = wire s ++ [JSON_stringify m] /\
      messageQueue (on_line line s) = messageQueue s) \/
     (wire (on_line line s) = wire s /\
      messageQueue (on_line line s) = messageQueue s ++ [m])) /\
  (forall rest, messageQueue s = m :: rest ->
     (wire (flush_body s) = wire s ++ [JSON_stringify m] /\
      messageQueue (flush_body s) = rest) \/
     (wire (flush_body s) = wire s /\
      messageQueue (flush_body s) = rest ++ [m])) /\
  (isConnected s = true -> ws_state s = Some CLOSING ->
     wire (sendToWebSocket m s) = wire s /\
     messageQueue (sendToWebSocket m s) = messageQueue s ++ [m]).
Proof.
  intros m s.
  assert (D : forall s0 : State,
    (wire (sendToWebSocket m s0) = wire s0 ++ [JSON_stringify m] /\
     messageQueue (sendToWebSocket m s0) = messageQueue s0) \/
    (wire (sendToWebSocket m s0) = wire s0 /\
     messageQueue (sendToWebSocket m s0) = messageQueue s0 ++ [m])).
  { intros s0; destruct (not_ready_cases s0) as [[Hc Ho]|H].
    - left; destruct (sendToWebSocket_ready m s0 Hc Ho) as (? & ? & _); auto.
    - right; destruct (sendToWebSocket_not_ready m s0 H) as (? & ? & _); auto. }
  split; [apply D|]. split; [|split; [|split; [|split]]].
  - intros [Hw Hq]. destruct (D s) as [[_ E]|[E _]].
    + rewrite E in Hq; exact (app_one_neq _ _ Hq).
    + rewrite E in Hw; exact (app_one_neq _ _ Hw).
  - intros [Hw Hq]. destruct (D s) as [[E _]|[_ E]].
    + rewrite E in Hw; exact (app_one_neq _ _ (eq_sym Hw)).
    + rewrite E in Hq; exact (app_one_neq _ _ (eq_sym Hq)).
  - intros line E; unfold on_line; rewrite E.
    destruct (D (log (Received_from_stdin m) s)) as [[Hw Hq]|[Hw Hq]];
      rewrite log_wire in Hw; rewrite log_messageQueue in Hq; auto.
  - intros rest E. destruct (ws_open s) eqn:Ho.
    + destruct (isConnected s) eqn:Hc.
      * left. destruct (flush_body_ready _ _ _ E Hc Ho); auto.
      * right. unfold flush_body; rewrite E.
        set (s1 := log _ _).
        assert (Hc1 : isConnected s1 = false)
          by (subst s1; unfold log; simpl; destruct (debug (options s));
              assumption).
        destruct (sendToWebSocket_not_ready m s1 (or_introl Hc1)) as (Hw & Hq & _).
        rewrite Hw, Hq; subst s1; rewrite log_wire, log_messageQueue; auto.
    + right. destruct (flush_body_not_ready _ _ _ E Ho); auto.
  - intros _ Hw.
    assert (Ho : ws_open s = false).
    { unfold ws_open; unfold ws_state in Hw; destruct (ws s) as [w|];
        [|reflexivity]. injection Hw as ->; reflexivity. }
    destruct (sendToWebSocket_not_ready m s (or_intror Ho)) as (? & ? & _); auto.
Qed.

(** C2 (as the code has it).  When a turn of the drain loop takes a message
    off the head of the queue and the socket is not open, the message is not
    written and not lost: it goes back into the queue, at its tail.  The
    other fields of the bridge are left as they were. *)
Theorem flush_failed_delivery_requeues_at_tail :
  forall (m : Json) (rest : list Json) (s : State),
  messageQueue s = m :: rest -> ws_open s = false ->
  messageQueue (flush_body s) = rest ++ [m] /\
  wire (flush_body s) = wire s /\
  same_control s (flush_body s).
Proof.
  intros m rest s E Ho.
  destruct (flush_body_not_ready _ _ _ E Ho) as (Hq & Hw).
  auto using flush_body_same_control.
Qed.

(** *** The 'open' listener *)

Lemma on_open_before_drain (s : State) (w : WebSocket) :
  ws s = Some w ->
  exists p, (forall fuel, turn fuel EvWsOpen s = flushMessageQueue fuel p) /\
            opened s p.
Proof.
  intros E.
  eexists; split; [intros fuel; unfold turn, on_open; reflexivity|].
  unfold_methods; constructor; rewrite E; simpl;
    destruct (debug (options s)); reflexivity.
Qed.

(** The 'open' turn always ends: the socket is open, so the drain needs as
    many turns of its loop as there are queued messages. *)
Lemma turn_open_total (s : State) :
  ws_state s = Some CONNECTING ->
  exists s', turn (List.length (messageQueue s)) EvWsOpen s = Some s' /\
    messageQueue s' = [] /\
    wire s' = wire s ++ map JSON_stringify (messageQueue s) /\
    isConnected s' = true /\ reconnectAttempts s' = 0 /\
    ws_state s' = Some OPEN /\ exit_code s' = exit_code s.
Proof.
  intros Hw. unfold ws_state in Hw. destruct (ws s) as [w|] eqn:E; [|discriminate].
  destruct (on_open_before_drain s w E) as (p & Ht & Hp).
  destruct (flushMessageQueue_open (messageQueue s) (List.length (messageQueue s)) p
              (op_messageQueue _ _ Hp) (op_isConnected _ _ Hp)
              (op_ws_open _ _ Hp) (le_n _)) as (s' & Hf & Hq' & Hw' & Hs).
  exists s'. rewrite Ht, Hf, Hq', Hw', (op_wire _ _ Hp).
  rewrite (same_control_ws_state _ _ Hs), (sc_reconnectAttempts _ _ Hs),
    (sc_isConnected _ _ Hs), (sc_exit_code _ _ Hs).
  destruct Hp; repeat split; assumption.
Qed.

(** Every enabled event has its turn: no listener fails to return in a
    state where its event can occur. *)
Lemma step_total (s : State) e :
  exit_code s = None -> enabled e s = true -> exists s', step s e s'.
Proof.
  intros Hex Hen.
  assert (T : exists fuel s', turn fuel e s = Some s').
  { destruct e; try (exists 0; eexists; reflexivity).
    - assert (Hw : ws_state s = Some CONNECTING)
        by (revert Hen; unfold enabled; destruct (ws_state s) as [[]|];
            congruence).
      destruct (turn_open_total s Hw) as (s' & Ht & _); eauto.
    - exists 0; simpl. destruct (find_timer id s) as [t|]; [|eauto].
      destruct (timer_kind t); eauto. }
  destruct T as (fuel & s' & Ht); exists s'; eapply step_turn; eassumption.
Qed.

(** *** The reconnect delay *)

Lemma decay_pow_succ (n : nat) :
  ((3 # 2) ^ Z.of_nat (S n) == (3 # 2) ^ Z.of_nat n * (3 # 2))%Q.
Proof.
  rewrite Nat2Z.inj_succ; unfold Z.succ.
  rewrite Qpower_plus by discriminate; reflexivity.
Qed.

Lemma decay_pow_mono (n m : nat) :
  n <= m -> ((3 # 2) ^ Z.of_nat n <= (3 # 2) ^ Z.of_nat m)%Q.
Proof.
  intros L; apply Qpower_le_compat_l; [lia | discriminate].
Qed.

Lemma default_timeout (env : Env) (n : nat) :
  reconnect_timeout (build_options no_options env) n
  = Qmin (1000 * (3 # 2) ^ Z.of_nat n) 30000.
Proof. reflexivity. Qed.

Lemma default_timeout_mono (env : Env) (n m : nat) :
  n <= m ->
  (reconnect_timeout (build_options no_options env) n
   <= reconnect_timeout (build_options no_options env) m)%Q.
Proof.
  intros L; rewrite !default_timeout.
  apply Q.min_le_compat_r.
  apply Qmult_le_l; [reflexivity | apply decay_pow_mono, L].
Qed.

(** Up to the clamp the default delay is the dyadic rational
    1000 * 3^n / 2^n, and the power of 1.5 it is computed from is 3^n / 2^n,
    with numerators below 2^53: values that doubles hold exactly. *)
Lemma default_timeout_dyadic (env : Env) (n : nat) :
  n < 9 ->
  (0 < 1000 * 3 ^ Z.of_nat n < 2 ^ 53)%Z /\
  (reconnect_timeout (build_options no_options env) n
   == inject_Z (1000 * 3 ^ Z.of_nat n) / inject_Z (2 ^ Z.of_nat n))%Q /\
  ((3 # 2) ^ Z.of_nat n
   == inject_Z (3 ^ Z.of_nat n) / inject_Z (2 ^ Z.of_nat n))%Q.
Proof.
  intros L; rewrite default_timeout.
  do 9 (destruct n as [|n]; [repeat split; reflexivity|]).
  lia.
Qed.

Lemma scheduleReconnect_arms (s : State) :
  reconnectTimer s = None ->
  timers (scheduleReconnect s) = timers s ++
    [mkTimer (next_timer s) ReconnectTimeout
             (reconnect_timeout (options s) (reconnectAttempts s))] /\
  reconnectTimer (scheduleReconnect s) = Some (next_timer s) /\
  next_timer (scheduleReconnect s) = S (next_timer s).
Proof.
  intros E; unfold_methods; rewrite E.
  destruct (debug (options s)); simpl; auto.
Qed.

(** C1.  With the default options, [scheduleReconnect] (when no retry is
    pending) arms one timer whose delay for attempt number n is
    min(1000 * 1.5^n, 30000): 1000, 1500, 2250, 3375 for n = 0, 1, 2, 3; the
    delays never decrease with n, stay below 30000 up to attempt 8 and are
    30000 from attempt 9 on. *)
Theorem scheduleReconnect_default_backoff : forall (env : Env) (s : State),
  options s = build_options no_options env ->
  reconnectTimer s = None ->
  let delay := reconnect_timeout (build_options no_options env) in
  timers (scheduleReconnect s) =
    timers s ++ [mkTimer (next_timer s) ReconnectTimeout
                         (delay (reconnectAttempts s))] /\
  (forall n, delay n == Qmin (1000 * (3 # 2) ^ Z.of_nat n) 30000)%Q /\
  (delay 0%nat == 1000)%Q /\ (delay 1%nat == 1500)%Q /\
  (delay 2%nat == 2250)%Q /\ (delay 3%nat == 3375)%Q /\
  (forall n, delay n <= delay (S n))%Q /\
  (forall n, n < 9 ->
     (delay n == 1000 * (3 # 2) ^ Z.of_nat n)%Q /\ (delay n < 30000)%Q) /\
  (forall n, 9 <= n -> (delay n == 30000)%Q).
Proof.
  intros env s Ho Hr delay.
  split; [|split; [|split; [|split; [|split; [|split; [|split; [|split]]]]]]].
  - destruct (scheduleReconnect_arms s Hr) as (-> & _). rewrite Ho; reflexivity.
  - intros n; subst delay; rewrite default_timeout; reflexivity.
  - reflexivity.
  - reflexivity.
  - reflexivity.
  - reflexivity.
  - intros n; apply default_timeout_mono; lia.
  - intros n L; subst delay; rewrite default_timeout.
    assert (B : (1000 * (3 # 2) ^ Z.of_nat n <= 1000 * (3 # 2) ^ Z.of_nat 8)%Q)
      by (apply Qmult_le_l; [reflexivity | apply decay_pow_mono; lia]).
    assert (B8 : (1000 * (3 # 2) ^ Z.of_nat 8 < 30000)%Q) by reflexivity.
    assert (Lt : (1000 * (3 # 2) ^ Z.of_nat n < 30000)%Q)
      by (eapply Qle_lt_trans; eassumption).
    rewrite (Q.min_l _ _ (Qlt_le_weak _ _ Lt)). split; [reflexivity | exact Lt].
  - intros n L; subst delay; rewrite default_timeout.
    apply Q.min_r.
    apply Qle_trans with (1000 * (3 # 2) ^ Z.of_nat 9)%Q; [discriminate|].
    apply Qmult_le_l; [reflexivity | apply decay_pow_mono; lia].
Qed.

(** *** Armed timers and their handles *)

Lemma In_remove_timer id tm t :
  In t (remove_timer id tm) <-> In t tm /\ timer_id t <> id.
Proof.
  unfold remove_timer; rewrite filter_In, negb_true_iff, Nat.eqb_neq; tauto.
Qed.

(** Clearing a timer keeps the handles of the others distinct. *)
Lemma remove_timer_NoDup id tm :
  NoDup (map timer_id tm) -> NoDup (map timer_id (remove_timer id tm)).
Proof.
  intros Hd; induction tm as [|t tm IH]; simpl; [exact Hd|].
  apply NoDup_cons_iff in Hd as (Hnotin & Hrest).
  destruct (negb (timer_id t =? id)); [|exact (IH Hrest)].
  simpl; apply NoDup_cons; [|exact (IH Hrest)].
  rewrite in_map_iff; intros (t' & Eid & Hin).
  apply In_remove_timer in Hin as (Hin & _).
  apply Hnotin; rewrite <- Eid; apply in_map, Hin.
Qed.

Lemma timers_ok_remove id tm next hb rc :
  timers_ok tm next hb rc -> timers_ok (remove_timer id tm) next hb rc.
Proof.
  intros (Hf & Hn & Hr & Hh); repeat split.
  - intros t Ht; apply In_remove_timer in Ht; apply Hf; tauto.
  - apply remove_timer_NoDup; assumption.
  - intros t Ht; apply In_remove_timer in Ht; apply Hr; tauto.
  - intros t Ht; apply In_remove_timer in Ht; apply Hh; tauto.
Qed.

(** Clearing the timer a handle names removes every timer of its kind. *)
Lemma timers_ok_stop h tm next rc :
  timers_ok tm next (Some h) rc -> timers_ok (remove_timer h tm) next None rc.
Proof.
  intros H; pose proof (timers_ok_remove h _ _ _ _ H) as (Hf & Hn & Hr & _).
  destruct H as (_ & _ & _ & Hh).
  repeat split; auto.
  intros t Ht Hk; apply In_remove_timer in Ht as (Ht & Hne).
  specialize (Hh t Ht Hk); congruence.
Qed.

Lemma timers_ok_fired t tm next hb rc :
  timers_ok tm next hb rc -> In t tm -> timer_kind t = ReconnectTimeout ->
  timers_ok (remove_timer (timer_id t) tm) next hb None.
Proof.
  intros H Hin Hk.
  pose proof (timers_ok_remove (timer_id t) _ _ _ _ H) as (Hf & Hn & _ & Hh).
  destruct H as (_ & _ & Hr & _).
  repeat split; auto.
  intros t' Ht' Hk'; apply In_remove_timer in Ht' as (Ht' & Hne).
  pose proof (Hr t Hin Hk); pose proof (Hr t' Ht' Hk'); congruence.
Qed.

Lemma timers_ok_arm_reconnect d tm next hb :
  timers_ok tm next hb None ->
  timers_ok (tm ++ [mkTimer next ReconnectTimeout d]) (S next) hb (Some next).
Proof.
  intros (Hf & Hn & Hr & Hh); repeat split.
  - intros t Ht; apply in_app_or in Ht as [Ht|[<-|[]]]; simpl;
      [specialize (Hf t Ht)|]; lia.
  - rewrite map_app; simpl. apply NoDup_app; [assumption|repeat constructor; auto|].
    intros x Hx [<-|[]]. apply in_map_iff in Hx as (t & E & Ht).
    specialize (Hf t Ht); lia.
  - intros t Ht Hk; apply in_app_or in Ht as [Ht|[<-|[]]]; simpl; auto.
    specialize (Hr t Ht Hk); discriminate.
  - intros t Ht Hk; apply in_app_or in Ht as [Ht|[<-|[]]]; auto; discriminate.
Qed.

Lemma timers_ok_arm_heartbeat d tm next rc :
  timers_ok tm next None rc ->
  timers_ok (tm ++ [mkTimer next HeartbeatInterval d]) (S next) (Some next) rc.
Proof.
  intros (Hf & Hn & Hr & Hh); repeat split.
  - intros t Ht; apply in_app_or in Ht as [Ht|[<-|[]]]; simpl;
      [specialize (Hf t Ht)|]; lia.
  - rewrite map_app; simpl. apply NoDup_app; [assumption|repeat constructor; auto|].
    intros x Hx [<-|[]]. apply in_map_iff in Hx as (t & E & Ht).
    specialize (Hf t Ht); lia.
  - intros t Ht Hk; apply in_app_or in Ht as [Ht|[<-|[]]]; auto; discriminate.
  - intros t Ht Hk; apply in_app_or in Ht as [Ht|[<-|[]]]; simpl; auto.
    specialize (Hh t Ht Hk); discriminate.
Qed.

(** Timers with one common handle, among timers with distinct handles. *)
Lemma same_id_at_most_one (p : Timer -> bool) (h : nat) (tm : list Timer) :
  NoDup (map timer_id tm) ->
  (forall t, In t tm -> p t = true -> timer_id t = h) ->
  List.length (filter p tm) <= 1.
Proof.
  induction tm as [|a tm IH]; simpl; intros Hn Hp; [lia|].
  inversion Hn as [|? ? Hna Hd]; subst.
  destruct (p a) eqn:Pa; [|apply IH; auto].
  assert (E : filter p tm = []).
  { destruct (filter p tm) as [|b l] eqn:F; [reflexivity|exfalso].
    assert (Hb : In b (filter p tm)) by (rewrite F; left; reflexivity).
    apply filter_In in Hb as (Hb & Pb).
    apply Hna. rewrite (Hp a (or_introl eq_refl) Pa), <- (Hp b (or_intror Hb) Pb).
    apply in_map; assumption. }
  rewrite E; simpl; lia.
Qed.

Lemma TimerKind_eqb_eq a b : TimerKind_eqb a b = true <-> a = b.
Proof. destruct a, b; simpl; split; congruence. Qed.

Lemma timers_ok_at_most_one k tm next hb rc :
  timers_ok tm next hb rc ->
  List.length (filter (fun t => TimerKind_eqb (timer_kind t) k) tm) <= 1.
Proof.
  intros (_ & Hn & Hr & Hh).
  destruct k.
  - destruct rc as [h|].
    + apply same_id_at_most_one with (h := h); auto.
      intros t Ht Hk; apply TimerKind_eqb_eq in Hk.
      specialize (Hr t Ht Hk); congruence.
    + apply same_id_at_most_one with (h := 0); auto.
      intros t Ht Hk; apply TimerKind_eqb_eq in Hk.
      specialize (Hr t Ht Hk); discriminate.
  - destruct hb as [h|].
    + apply same_id_at_most_one with (h := h); auto.
      intros t Ht Hk; apply TimerKind_eqb_eq in Hk.
      specialize (Hh t Ht Hk); congruence.
    + apply same_id_at_most_one with (h := 0); auto.
      intros t Ht Hk; apply TimerKind_eqb_eq in Hk.
      specialize (Hh t Ht Hk); discriminate.
Qed.

(** *** The invariant is kept by every turn *)

Lemma Inv_ext (s s' : State) :
  timers s' = timers s -> next_timer s' = next_timer s ->
  heartbeatTimer s' = heartbeatTimer s -> reconnectTimer s' = reconnectTimer s ->
  exit_code s' = exit_code s -> ws s' = ws s ->
  isConnected s' = isConnected s ->
  Inv s -> Inv s'.
Proof.
  unfold Inv, ws_state; intros -> -> -> -> -> -> ->; auto.
Qed.

Lemma Inv_same_control (s s' : State) : same_control s s' -> Inv s -> Inv s'.
Proof.
  intros []; apply Inv_ext; assumption.
Qed.

Lemma Inv_log l (s : State) : Inv s -> Inv (log l s).
Proof. apply Inv_same_control, log_same_control. Qed.

Lemma Inv_sendToWebSocket m (s : State) : Inv s -> Inv (sendToWebSocket m s).
Proof. apply Inv_same_control, sendToWebSocket_same_control. Qed.

Lemma Inv_on_line line (s : State) : Inv s -> Inv (on_line line s).
Proof.
  unfold on_line; destruct (JSON_parse line);
    auto using Inv_log, Inv_sendToWebSocket.
Qed.

Lemma Inv_on_message data (s : State) : Inv s -> Inv (on_message data s).
Proof.
  unfold on_message; destruct (JSON_parse data); auto using Inv_log.
  intros H; apply Inv_ext with (s := log (Received_from_WebSocket j) s);
    auto using Inv_log.
Qed.

Lemma Inv_heartbeat_callback (s : State) : Inv s -> Inv (heartbeat_callback s).
Proof.
  unfold heartbeat_callback; destruct (ws_open s); auto.
  intros H; apply Inv_ext with (s := log Sending_ping s); auto using Inv_log.
Qed.

(** [scheduleReconnect] while no socket is live. *)
Lemma Inv_scheduleReconnect (s : State) :
  live (ws_state s) = false -> up (ws_state s) = false ->
  isConnected s = false -> heartbeatTimer s = None ->
  Inv s -> Inv (scheduleReconnect s).
Proof.
  intros Hl Hu Hc Hh HI.
  destruct (reconnectTimer s) as [r|] eqn:Er.
  - unfold scheduleReconnect; rewrite Er; exact HI.
  - destruct HI as (HT & HL).
    destruct (scheduleReconnect_arms s Er) as (Et & Erc & En).
    assert (Eo : heartbeatTimer (scheduleReconnect s) = heartbeatTimer s /\
                 exit_code (scheduleReconnect s) = exit_code s /\
                 ws (scheduleReconnect s) = ws s /\
                 isConnected (scheduleReconnect s) = isConnected s).
    { unfold_methods; rewrite Er; destruct (debug (options s)); simpl; auto. }
    destruct Eo as (Eh & Ee & Ew & Ec).
    unfold Inv, ws_state in *. rewrite Et, Erc, En, Eh, Ee, Ew, Ec. split.
    + rewrite Er in HT. apply timers_ok_arm_reconnect; assumption.
    + intros _; repeat split.
      * intros _; assumption.
      * intros id E; injection E as <-. eexists; apply in_or_app; right; left;
          reflexivity.
      * intros [H|H]; congruence.
Qed.

(** Evaluate the methods, setters and projections (and nothing else) by
    value, so that nested updates of the state record are computed once. *)
Ltac compute_state :=
  cbv beta iota zeta delta
    [on_line on_message on_error on_pong on_close on_rl_close on_signal
     reconnect_callback heartbeat_callback start setupStdioHandler connect
     close_ws scheduleReconnect startHeartbeat stopHeartbeat sendToStdout
     flush_body sendToWebSocket process_exit set_readyState arm disarm log
     ws_open ws_state shutdown shutdown_n shutdown_body shutdown_cancel
     rl_close WebSocket_close WebSocket_set_readyState ReadyState_eqb
     option_map live up andb negb
     set_ws set_messageQueue set_reconnectAttempts set_isConnected
     set_heartbeatTimer set_reconnectTimer set_rl_closed set_rl_listening
     set_timers set_next_timer set_wire set_pings set_stdout set_stderr
     set_exit_code
     url options ws messageQueue reconnectAttempts isConnected heartbeatTimer
     reconnectTimer rl_closed rl_listening timers next_timer wire pings
     stdout stderr exit_code
     token reconnectInterval maxReconnectInterval reconnectDecay
     heartbeatInterval debug ws_url ws_authorization readyState].

(** Case analysis on everything the methods branch on: the debug flag, the
    socket and its state, the two handles. *)
Ltac split_state s :=
  let w := fresh "w" in let hb := fresh "hb" in let rc := fresh "rc" in
  let o := fresh "o" in let dbg := fresh "dbg" in let r := fresh "r" in
  let rlc := fresh "rlc" in let rll := fresh "rll" in
  destruct s as [? o w ? ? ? hb rc rlc rll ? ? ? ? ? ? ?];
  destruct o as [? ? ? ? ? dbg]; destruct dbg;
  destruct w as [[? ? r]|]; [destruct r| | destruct r|];
  destruct hb; destruct rc;
  unfold Inv; compute_state.

(** The same without the state of the socket. *)
Ltac split_state_ws s :=
  let w := fresh "w" in let hb := fresh "hb" in let rc := fresh "rc" in
  let o := fresh "o" in let dbg := fresh "dbg" in
  let rlc := fresh "rlc" in let rll := fresh "rll" in
  destruct s as [? o w ? ? ? hb rc rlc rll ? ? ? ? ? ? ?];
  destruct o as [? ? ? ? ? dbg]; destruct dbg;
  destruct w as [[? ? ?]|]; destruct hb; destruct rc;
  unfold Inv; compute_state.

Ltac solve_link :=
  unfold link_ok; simpl;
  first [ discriminate
        | intros _; split; [|split];
          [ first [ reflexivity | congruence ]
          | first [ intros; discriminate
                  | let E := fresh in intros ? E; injection E as <-;
                    eexists;
                    first [ left; reflexivity
                          | apply in_or_app; right; left; reflexivity ] ]
          | first [ reflexivity
                  | let H := fresh in intros [H|H]; congruence ] ] ].

(** While a socket is live no retry is pending. *)
Lemma live_no_retry (s : State) :
  Inv s -> exit_code s = None -> live (ws_state s) = true ->
  reconnectTimer s = None /\
  forall t, In t (timers s) -> timer_kind t = HeartbeatInterval.
Proof.
  intros (HT & HL) Hex Hl. destruct (HL Hex) as (H1 & _).
  assert (E : reconnectTimer s = None).
  { destruct (reconnectTimer s); [|reflexivity].
    rewrite H1 in Hl; discriminate. }
  split; [assumption|].
  intros t Ht. destruct (timer_kind t) eqn:K; [|reflexivity].
  destruct HT as (_ & _ & Hr & _). specialize (Hr t Ht K); congruence.
Qed.

(** Before 'open', and once the socket is closed, the connected flag and the
    heartbeat are off. *)
Lemma not_up_disconnected (s : State) :
  Inv s -> exit_code s = None -> up (ws_state s) = false ->
  isConnected s = false /\ heartbeatTimer s = None /\
  forall t, In t (timers s) -> timer_kind t = ReconnectTimeout.
Proof.
  intros (HT & HL) Hex Hu. destruct (HL Hex) as (_ & _ & H3).
  assert (Ec : isConnected s = false).
  { destruct (isConnected s); [|reflexivity].
    rewrite H3 in Hu; [discriminate | left; reflexivity]. }
  assert (Eh : heartbeatTimer s = None).
  { destruct (heartbeatTimer s); [|reflexivity].
    rewrite H3 in Hu; [discriminate | right; discriminate]. }
  repeat split; try assumption.
  intros t Ht. destruct (timer_kind t) eqn:K; [reflexivity|].
  destruct HT as (_ & _ & _ & Hh). specialize (Hh t Ht K); congruence.
Qed.

Lemma Inv_stopHeartbeat (s : State) : Inv s -> Inv (stopHeartbeat s).
Proof.
  intros HI; revert HI; split_state s; intros (HT & HL);
    (split; [auto using timers_ok_stop|]); try assumption;
    intros Hex; destruct (HL Hex) as (H1 & H2 & H3); simpl in *;
    (split; [|split];
     [ assumption
     | try (intros; discriminate);
       try (assert (true = false) by (apply H1; discriminate); discriminate);
       try (assert (false = true) by (apply H3; right; discriminate);
            discriminate)
     | intros [H|H]; [auto | congruence] ]).
Qed.

(** The 'close' turn, up to its call of [scheduleReconnect]. *)
Lemma close_before_schedule (s : State) :
  Inv s -> exit_code s = None -> live (ws_state s) = true ->
  exists s4, on_close (set_readyState CLOSED s) = scheduleReconnect s4 /\
    Inv s4 /\ ws_state s4 = Some CLOSED /\ isConnected s4 = false /\
    heartbeatTimer s4 = None /\ reconnectTimer s4 = None /\
    next_timer s4 = next_timer s /\ options s4 = options s /\
    reconnectAttempts s4 = reconnectAttempts s /\ exit_code s4 = None.
Proof.
  intros HI Hex Hl. destruct (live_no_retry s HI Hex Hl) as (Er & _).
  eexists; split; [unfold on_close; reflexivity|].
  revert HI Hex Hl Er; split_state s;
    intros (HT & HL) Hex Hl Er; try discriminate;
    (split; [split; [|solve_link]|repeat split]);
    auto using timers_ok_stop.
Qed.

(** The 'close' turn. *)
Lemma Inv_close (s : State) :
  Inv s -> exit_code s = None -> live (ws_state s) = true ->
  Inv (on_close (set_readyState CLOSED s)).
Proof.
  intros HI Hex Hl.
  destruct (close_before_schedule s HI Hex Hl)
    as (s4 & -> & HI4 & Hw4 & Hc4 & Hh4 & _).
  apply Inv_scheduleReconnect; try assumption; rewrite Hw4; reflexivity.
Qed.

(** The 'open' turn. *)
Lemma Inv_open fuel (s s' : State) :
  Inv s -> exit_code s = None -> ws_state s = Some CONNECTING ->
  turn fuel EvWsOpen s = Some s' -> Inv s'.
Proof.
  intros HI Hex Hw Ht.
  destruct (not_up_disconnected s HI Hex) as (Hc & Hh & _);
    [rewrite Hw; reflexivity|].
  assert (Hr : reconnectTimer s = None)
    by (apply live_no_retry; [assumption..|rewrite Hw; reflexivity]).
  unfold ws_state in Hw; destruct (ws s) as [w|] eqn:Ew; [|discriminate].
  destruct (on_open_before_drain s w Ew) as (p & Hp & Op).
  rewrite Hp in Ht.
  apply (Inv_same_control p s' (flushMessageQueue_same_control _ _ _ Ht)).
  destruct HI as (HT & _).
  unfold Inv.
  rewrite (op_timers _ _ Op), (op_next_timer _ _ Op), (op_heartbeatTimer _ _ Op),
    (op_reconnectTimer _ _ Op), (op_exit_code _ _ Op), (op_isConnected _ _ Op),
    (op_ws_state _ _ Op), Hr.
  rewrite Hh, Hr in HT. split.
  - apply timers_ok_arm_heartbeat; assumption.
  - intros _; split; [|split]; [congruence | intros; discriminate | reflexivity].
Qed.

(** The socket starts closing. *)
Lemma Inv_closing (s : State) :
  Inv s -> enabled EvWsClosing s = true -> Inv (set_readyState CLOSING s).
Proof.
  intros HI He; revert HI He; unfold enabled; split_state s;
    intros (HT & HL) He; try discriminate He;
    (split; [assumption|]); intros Hex; destruct (HL Hex) as (H1 & H2 & H3);
    simpl in *; (split; [|split]); auto.
Qed.

(** A retry timer fires. *)
Lemma Inv_reconnect_fired ctor_ok t (s : State) :
  Inv s -> exit_code s = None ->
  In t (timers s) -> timer_kind t = ReconnectTimeout ->
  Inv (reconnect_callback ctor_ok (disarm (timer_id t) s)).
Proof.
  intros HI Hex Ht Hk.
  assert (Hr : reconnectTimer s = Some (timer_id t))
    by (destruct HI as ((_ & _ & Hr & _) & _); auto).
  assert (Hl : live (ws_state s) = false)
    by (destruct HI as (_ & HL); apply HL; [assumption|congruence]).
  assert (Hu : up (ws_state s) = false)
    by (destruct (ws_state s) as [[]|]; try reflexivity; discriminate).
  destruct (not_up_disconnected s HI Hex Hu) as (Hc & Hh & _).
  unfold reconnect_callback. set (s1 := set_reconnectAttempts _ _).
  assert (F1 : ws_state s1 = ws_state s /\ isConnected s1 = false /\
               heartbeatTimer s1 = None /\ exit_code s1 = None)
    by (subst s1; unfold ws_state, disarm; simpl; auto).
  destruct F1 as (Fw & Fc & Fh & Fe).
  assert (H1 : Inv s1).
  { destruct HI as (HT & HL). subst s1; unfold Inv, disarm, ws_state; simpl.
    split.
    - rewrite Hh in *. apply timers_ok_fired with (rc := reconnectTimer s);
        assumption.
    - intros _; split; [|split];
        [congruence | intros; discriminate | intros [H|H]; congruence]. }
  unfold connect. destruct ctor_ok.
  - destruct H1 as (HT1 & HL1). unfold Inv, ws_state; simpl.
    split; [exact HT1|]. rewrite Hex, Hc, Hh.
    intros _; split; [|split];
      [congruence | intros; discriminate | intros [H|H]; congruence].
  - pose proof (log_same_control Failed_to_create_WebSocket s1) as L.
    apply Inv_scheduleReconnect;
      [ rewrite (same_control_ws_state _ _ L), Fw
      | rewrite (same_control_ws_state _ _ L), Fw
      | rewrite (sc_isConnected _ _ L)
      | rewrite (sc_heartbeatTimer _ _ L)
      | apply Inv_log ]; assumption.
Qed.

(** *** Shutdown *)

Lemma WebSocket_close_idem w :
  WebSocket_close (WebSocket_close w) = WebSocket_close w.
Proof. destruct w as [? ? []]; reflexivity. Qed.

Lemma shutdown_spec (s : State) :
  exit_code s = None -> shutdown_effect s (shutdown s).
Proof.
  intros Hex; revert Hex.
  split_state s; destruct rlc, rll; intros ->; compute_state;
    (constructor; compute_state; try reflexivity;
     intros t; rewrite ?In_remove_timer; intuition congruence).
Qed.

Lemma Inv_shutdown (s : State) :
  Inv s -> exit_code s = None -> Inv (shutdown s).
Proof.
  intros HI Hex; revert HI Hex.
  split_state_ws s; destruct rlc, rll; intros (HT & _) ->; compute_state;
    (split; [|solve_link]);
    auto 6 using timers_ok_remove, timers_ok_stop.
Qed.

(** The reader's 'close' listener re-enters [shutdown] at most once: deeper
    unrollings of the nesting give the same state. *)
Lemma shutdown_depth (d : nat) (s : State) : shutdown_n (S d) s = shutdown s.
Proof.
  assert (C : forall x : State, rl_closed (shutdown_cancel x) = rl_closed x)
    by (intros x; split_state_ws x; reflexivity).
  assert (A : forall d (x : State), rl_closed x = true ->
              shutdown_n d x = shutdown_n 0 x).
  { intros [|d'] x Hx; [reflexivity|].
    change (shutdown_n (S d') x) with
      (shutdown_body (rl_close (fun y => shutdown_n d' (log Stdin_closed y))) x).
    change (shutdown_n 0 x) with (shutdown_body (rl_close (fun y => y)) x).
    unfold shutdown_body, rl_close. rewrite C, Hx; reflexivity. }
  unfold shutdown.
  change (shutdown_n (S d) s) with
    (shutdown_body (rl_close (fun y => shutdown_n d (log Stdin_closed y))) s).
  change (shutdown_n 1 s) with
    (shutdown_body (rl_close (fun y => shutdown_n 0 (log Stdin_closed y))) s).
  unfold shutdown_body, rl_close.
  destruct (rl_closed (shutdown_cancel s)); [reflexivity|].
  destruct (rl_listening _); [|reflexivity].
  f_equal. apply A.
  unfold log; destruct (debug _); reflexivity.
Qed.

(** *** Every reachable state satisfies the invariant *)

Lemma timers_ok_nil next hb rc : timers_ok [] next hb rc.
Proof. repeat split; simpl; try tauto. constructor. Qed.

Lemma Inv_start u o env ctor_ok (s0 : State) :
  new_bridge u o env = Some s0 -> Inv (start ctor_ok s0).
Proof.
  unfold new_bridge. destruct (String.eqb u EmptyString); [discriminate|].
  intros E; injection E as <-.
  destruct (build_options o env) as [? ? ? ? ? []]; destruct ctor_ok;
    unfold Inv; compute_state;
    (split; [|solve_link]);
    first [ apply timers_ok_nil
          | apply (timers_ok_arm_reconnect _ []), timers_ok_nil ].
Qed.

Lemma find_timer_In id t (s : State) :
  find_timer id s = Some t -> In t (timers s) /\ timer_id t = id.
Proof.
  unfold find_timer; intros H; apply find_some in H as (Hin & E).
  apply Nat.eqb_eq in E; auto.
Qed.

Lemma enabled_close_live (s : State) :
  enabled EvWsClose s = true -> live (ws_state s) = true.
Proof. unfold enabled, live; destruct (ws_state s) as [[]|]; auto. Qed.

Lemma enabled_open_connecting (s : State) :
  enabled EvWsOpen s = true -> ws_state s = Some CONNECTING.
Proof. unfold enabled; destruct (ws_state s) as [[]|]; congruence. Qed.

Lemma Inv_step (s s' : State) e : Inv s -> step s e s' -> Inv s'.
Proof.
  intros HI Hs; destruct Hs as [s e fuel s' Hex Hen Ht].
  destruct e; simpl in Ht; try (injection Ht as <-).
  - apply Inv_on_line; assumption.
  - simpl in Hen; apply andb_prop in Hen as (Hl & Hc).
    apply negb_true_iff in Hc. unfold rl_close; rewrite Hc; simpl; rewrite Hl.
    unfold on_rl_close. apply Inv_shutdown.
    + apply Inv_log. revert HI; apply Inv_ext; reflexivity.
    + rewrite log_exit_code; assumption.
  - unfold on_signal. apply Inv_shutdown; [apply Inv_log; assumption|].
    rewrite log_exit_code; assumption.
  - eapply Inv_open; eauto using enabled_open_connecting.
  - apply Inv_on_message; assumption.
  - apply Inv_log; assumption.
  - apply Inv_closing; assumption.
  - apply Inv_close; auto using enabled_close_live.
  - apply Inv_log; assumption.
  - destruct (find_timer id s) as [t|] eqn:F;
      [|injection Ht as <-; assumption].
    apply find_timer_In in F as (Hin & <-).
    destruct (timer_kind t) eqn:K; injection Ht as <-.
    + apply Inv_reconnect_fired; assumption.
    + apply Inv_heartbeat_callback; assumption.
Qed.

Theorem reachable_Inv (s : State) : reachable s -> Inv s.
Proof.
  induction 1 as [u o env ok s0 E | s e s' _ IH Hs].
  - eapply Inv_start; eassumption.
  - eapply Inv_step; eassumption.
Qed.

Lemma steps_Inv (s s' : State) es : Inv s -> steps s es s' -> Inv s'.
Proof.
  intros HI Hs; induction Hs; eauto using Inv_step.
Qed.

Lemma steps_reachable (s s' : State) es :
  reachable s -> steps s es s' -> reachable s'.
Proof.
  intros Hr Hs; induction Hs; eauto using reachable_step.
Qed.

Lemma run_steps es : forall (s s' : State), run es s = Some s' -> steps s es s'.
Proof.
  induction es as [|e es IH]; simpl; intros s s' H.
  - injection H as <-; constructor.
  - destruct (enabled e s) eqn:En; [|discriminate].
    destruct (exit_code s) eqn:Ex; [discriminate|].
    destruct (turn _ e s) as [s1|] eqn:T; [|discriminate].
    econstructor; [econstructor; eassumption | apply IH, H].
Qed.

(** *** One timer of each kind *)

Lemma armed_at_most_one k (s : State) :
  Inv s -> List.length (armed k s) <= 1.
Proof. intros (HT & _); eapply timers_ok_at_most_one; eassumption. Qed.

Lemma armed_app k t (s : State) tm :
  timers s = tm ++ [t] ->
  armed k s = filter (fun t => TimerKind_eqb (timer_kind t) k) tm ++
              (if TimerKind_eqb (timer_kind t) k then [t] else []).
Proof. intros E; unfold armed; rewrite E, filter_app; reflexivity. Qed.

Lemma armed_none_without_handle (s : State) :
  Inv s -> reconnectTimer s = None -> armed ReconnectTimeout s = [].
Proof.
  intros ((_ & _ & Hr & _) & _) E. unfold armed.
  destruct (filter _ (timers s)) as [|t l] eqn:F; [reflexivity|exfalso].
  assert (Ht : In t (filter (fun t => TimerKind_eqb (timer_kind t) ReconnectTimeout)
                            (timers s))) by (rewrite F; left; reflexivity).
  apply filter_In in Ht as (Ht & K). apply TimerKind_eqb_eq in K.
  specialize (Hr t Ht K); congruence.
Qed.

(** C6.  In every execution at most one retry timer is armed at any time.
    [scheduleReconnect] does nothing while its handle is set, so after two
    calls in a row exactly one retry timer is armed, the second call having
    changed nothing. *)
Theorem single_pending_retry_timer :
  (forall s : State, reachable s ->
     List.length (armed ReconnectTimeout s) <= 1) /\
  (forall s : State, reconnectTimer s <> None -> scheduleReconnect s = s) /\
  (forall s : State, reachable s -> exit_code s = None ->
     scheduleReconnect (scheduleReconnect s) = scheduleReconnect s /\
     List.length (armed ReconnectTimeout (scheduleReconnect (scheduleReconnect s))) = 1).
Proof.
  split; [|split].
  - intros s Hr; apply armed_at_most_one, reachable_Inv, Hr.
  - intros s Hn; unfold scheduleReconnect.
    destruct (reconnectTimer s); [reflexivity | congruence].
  - intros s Hr Hex. pose proof (reachable_Inv s Hr) as HI.
    destruct (reconnectTimer s) as [id|] eqn:E.
    + assert (E1 : scheduleReconnect s = s)
        by (unfold scheduleReconnect; rewrite E; reflexivity).
      rewrite !E1. split; [reflexivity|].
      pose proof (armed_at_most_one ReconnectTimeout s HI) as Hle.
      destruct HI as (_ & HL). destruct (HL Hex) as (_ & H2 & _).
      destruct (H2 id E) as (d & Hin).
      assert (Hin' : In (mkTimer id ReconnectTimeout d) (armed ReconnectTimeout s))
        by (unfold armed; apply filter_In; auto).
      destruct (armed ReconnectTimeout s); [destruct Hin'|simpl in *; lia].
    + destruct (scheduleReconnect_arms s E) as (Et & Erc & _).
      assert (E2 : scheduleReconnect (scheduleReconnect s) = scheduleReconnect s)
        by (unfold scheduleReconnect at 1; rewrite Erc; reflexivity).
      rewrite E2. split; [reflexivity|].
      rewrite (armed_app _ _ _ _ Et).
      fold (armed ReconnectTimeout s).
      rewrite (armed_none_without_handle s HI E); reflexivity.
Qed.

(** C3 (as the code has it).  In every execution at most one heartbeat timer
    is armed at any time: the bridge calls [startHeartbeat] only from the
    'open' listener, when none is armed.  [startHeartbeat] itself has no
    guard: it always arms one more timer and stores the new handle, so called
    with none armed it leaves exactly one, and called while one is armed it
    leaves two. *)
Theorem heartbeat_timer_single_in_executions :
  (forall s : State, reachable s ->
     List.length (armed HeartbeatInterval s) <= 1) /\
  (forall s : State,
     armed HeartbeatInterval (startHeartbeat s) =
       armed HeartbeatInterval s ++
       [mkTimer (next_timer s) HeartbeatInterval (heartbeatInterval (options s))] /\
     heartbeatTimer (startHeartbeat s) = Some (next_timer s)) /\
  (forall s : State, armed HeartbeatInterval s = [] ->
     List.length (armed HeartbeatInterval (startHeartbeat s)) = 1) /\
  (forall s : State,
     List.length (armed HeartbeatInterval (startHeartbeat s)) =
     S (List.length (armed HeartbeatInterval s))).
Proof.
  assert (A : forall s : State,
     armed HeartbeatInterval (startHeartbeat s) =
       armed HeartbeatInterval s ++
       [mkTimer (next_timer s) HeartbeatInterval (heartbeatInterval (options s))]).
  { intros s.
    exact (armed_app HeartbeatInterval
             (mkTimer (next_timer s) HeartbeatInterval
                      (heartbeatInterval (options s)))
             (startHeartbeat s) (timers s) eq_refl). }
  split; [|split; [|split]].
  - intros s Hr; apply armed_at_most_one, reachable_Inv, Hr.
  - intros s; split; [apply A | reflexivity].
  - intros s E; rewrite A, E; reflexivity.
  - intros s; rewrite A, length_app; simpl; lia.
Qed.

(** *** Shutdown, as a claim *)

Lemma no_step_after_exit (s s' : State) e :
  exit_code s <> None -> ~ step s e s'.
Proof. intros Hn Hs; destruct Hs; congruence. Qed.

(** C8.  From every state of the running process, [shutdown] clears the
    timers its two handles name before it returns control, closes the socket
    if there is one (an open socket becomes CLOSING), closes the input
    reader, and exits with status 0; in an execution of the bridge that
    leaves no timer armed at all, and from the state it leaves no turn runs
    any more: no retry fires and no ping is sent. *)
Theorem shutdown_cancels_timers_and_exits : forall s : State,
  exit_code s = None ->
  exit_code (shutdown s) = Some 0%Z /\
  (forall id, reconnectTimer s = Some id -> find_timer id (shutdown s) = None) /\
  (forall id, heartbeatTimer s = Some id -> find_timer id (shutdown s) = None) /\
  (reachable s -> timers (shutdown s) = []) /\
  ws (shutdown s) = option_map WebSocket_close (ws s) /\
  (ws_open s = true -> ws_state (shutdown s) = Some CLOSING) /\
  rl_closed (shutdown s) = true /\
  pings (shutdown s) = pings s /\
  (forall e s', ~ step (shutdown s) e s').
Proof.
  intros s Hex.
  destruct (shutdown_spec s Hex)
    as [He Hrl Hws Hhb Hrc Htm _ _ _ Hp _ _].
  assert (F : forall id, reconnectTimer s = Some id \/ heartbeatTimer s = Some id ->
                         find_timer id (shutdown s) = None).
  { intros id H. destruct (find_timer id (shutdown s)) as [t|] eqn:E;
      [exfalso|reflexivity].
    apply find_timer_In in E as (Hin & <-).
    apply Htm in Hin as (_ & Hr & Hh). tauto. }
  repeat match goal with |- _ /\ _ => split end; auto.
  - intros Hre. destruct (reachable_Inv s Hre) as ((_ & _ & Hr & Hh) & _).
    assert (N : forall t, ~ In t (timers (shutdown s))).
    { intros t Hin. apply Htm in Hin as (Hin & Hnr & Hnh).
      destruct (timer_kind t) eqn:K; [apply Hnr | apply Hnh]; auto. }
    destruct (timers (shutdown s)) as [|t l]; [reflexivity|exfalso].
    apply (N t); left; reflexivity.
  - intros Ho. unfold ws_state; rewrite Hws.
    unfold ws_open in Ho. destruct (ws s) as [[? ? []]|]; try discriminate.
    reflexivity.
  - intros e s'; apply no_step_after_exit; congruence.
Qed.

(** *** Lines that do not decode *)

Lemma filter_is_error_app (a b : list LogMsg) :
  filter is_error (a ++ b) = filter is_error a ++ filter is_error b.
Proof. apply filter_app. Qed.

(** C9 (as the code has it).  A line that does not decode is discarded: its
    turn changes nothing but the log, which gets one error entry when debug
    logging is on and nothing otherwise, and the process keeps running.  A
    line that decodes, arriving next, is handed to the socket once: written
    at once when the bridge is connected and the socket open, else queued.
    Over the two turns the log gains that one error entry (with debug
    logging) and no other. *)
Theorem malformed_line_is_discarded :
  forall (bad good : string) (m : Json) (s : State),
  JSON_parse bad = None -> JSON_parse good = Some m ->
  exit_code s = None -> rl_listening s = true -> rl_closed s = false ->
  exists s1 s2,
    step s (EvLine bad) s1 /\ step s1 (EvLine good) s2 /\
    same_control s s1 /\ wire s1 = wire s /\ messageQueue s1 = messageQueue s /\
    stderr s1 = stderr s ++
      (if debug (options s) then [Failed_to_parse_stdin bad] else []) /\
    exit_code s2 = None /\
    ((wire s2 = wire s ++ [JSON_stringify m] /\ messageQueue s2 = messageQueue s) \/
     (wire s2 = wire s /\ messageQueue s2 = messageQueue s ++ [m])) /\
    (isConnected s = true -> ws_open s = true ->
     wire s2 = wire s ++ [JSON_stringify m] /\ messageQueue s2 = messageQueue s) /\
    filter is_error (stderr s2) = filter is_error (stderr s) ++
      (if debug (options s) then [Failed_to_parse_stdin bad] else []).
Proof.
  intros bad good m s Hb Hg Hex Hl Hc.
  set (s1 := on_line bad s). set (s2 := on_line good s1).
  assert (E1 : s1 = log (Failed_to_parse_stdin bad) s)
    by (subst s1; unfold on_line; rewrite Hb; reflexivity).
  assert (S1 : same_control s s1) by (rewrite E1; apply log_same_control).
  assert (W1 : wire s1 = wire s) by (rewrite E1; apply log_wire).
  assert (Q1 : messageQueue s1 = messageQueue s)
    by (rewrite E1; apply log_messageQueue).
  assert (L1 : stderr s1 = stderr s ++
            (if debug (options s) then [Failed_to_parse_stdin bad] else []))
    by (rewrite E1; apply log_stderr).
  pose proof (sc_options _ _ S1) as Eo.
  pose proof (sc_rl_closed _ _ S1) as Erc.
  pose proof (sc_rl_listening _ _ S1) as Erl.
  pose proof (sc_exit_code _ _ S1) as Eex.
  set (s1' := log (Received_from_stdin m) s1).
  assert (E2 : s2 = sendToWebSocket m s1')
    by (subst s2 s1'; unfold on_line; rewrite Hg; reflexivity).
  assert (S2 : same_control s1 s2).
  { rewrite E2. eapply same_control_trans;
      [apply log_same_control | apply sendToWebSocket_same_control]. }
  assert (X2 : exit_code s2 = None).
  { rewrite (sc_exit_code _ _ S2); congruence. }
  assert (C1' : isConnected s1' = isConnected s /\ ws_open s1' = ws_open s).
  { subst s1'. pose proof (log_same_control (Received_from_stdin m) s1) as SL.
    rewrite (sc_isConnected _ _ SL), (same_control_ws_open _ _ SL).
    rewrite (sc_isConnected _ _ S1), (same_control_ws_open _ _ S1).
    auto. }
  destruct C1' as (Ci & Co).
  assert (L1' : stderr s1' = stderr s1 ++
            (if debug (options s) then [Received_from_stdin m] else []))
    by (subst s1'; rewrite log_stderr, Eo; reflexivity).
  assert (O1' : options s1' = options s).
  { subst s1'. rewrite (sc_options _ _ (log_same_control _ s1)); assumption. }
  assert (R : (isConnected s = true /\ ws_open s = true /\
               wire s2 = wire s ++ [JSON_stringify m] /\
               messageQueue s2 = messageQueue s /\
               filter is_error (stderr s2) = filter is_error (stderr s1)) \/
              ((isConnected s = false \/ ws_open s = false) /\
               wire s2 = wire s /\ messageQueue s2 = messageQueue s ++ [m] /\
               filter is_error (stderr s2) = filter is_error (stderr s1))).
  { destruct (not_ready_cases s) as [[Hi Ho]|Hn].
    - left. rewrite <- Ci in Hi; rewrite <- Co in Ho.
      destruct (sendToWebSocket_ready m s1' Hi Ho) as (Hw & Hq & He).
      rewrite Ci in Hi; rewrite Co in Ho.
      rewrite E2, Hw, Hq, He, L1'. subst s1'.
      rewrite log_wire, log_messageQueue, W1, Q1, filter_is_error_app.
      repeat split; auto.
      destruct (debug (options s)); simpl; rewrite app_nil_r; reflexivity.
    - right.
      assert (Hn' : isConnected s1' = false \/ ws_open s1' = false)
        by (rewrite Ci, Co; assumption).
      destruct (sendToWebSocket_not_ready m s1' Hn') as (Hw & Hq & He).
      rewrite E2, Hw, Hq, He, O1', L1'. subst s1'.
      rewrite log_wire, log_messageQueue, W1, Q1, !filter_is_error_app.
      repeat split; auto.
      destruct (debug (options s)); simpl; rewrite ?app_nil_r; reflexivity. }
  exists s1, s2.
  repeat match goal with |- _ /\ _ => split end; auto.
  - apply step_turn with (fuel := 0); auto.
    simpl; rewrite Hl, Hc; reflexivity.
  - apply step_turn with (fuel := 0); try reflexivity.
    + congruence.
    + simpl; rewrite Erl, Erc, Hl, Hc; reflexivity.
  - destruct R as [(_ & _ & ? & ? & _)|(_ & ? & ? & _)]; auto.
  - intros Hi Ho. destruct R as [(_ & _ & ? & ? & _)|([H|H] & _)];
      auto; congruence.
  - assert (F : filter is_error (stderr s2) = filter is_error (stderr s1))
      by (destruct R as [(_ & _ & _ & _ & ?)|(_ & _ & _ & ?)]; assumption).
    rewrite F, L1, filter_is_error_app.
    destruct (debug (options s)); reflexivity.
Qed.

(** *** The attempt counter *)

Lemma turn_stdin_end (s : State) :
  enabled EvStdinEnd s = true ->
  rl_close on_rl_close s = shutdown (log Stdin_closed (set_rl_closed true s)).
Proof.
  simpl; intros H; apply andb_prop in H as (Hl & Hc).
  apply negb_true_iff in Hc. unfold rl_close; rewrite Hc; simpl; rewrite Hl.
  reflexivity.
Qed.

Lemma on_line_same_control line (s : State) : same_control s (on_line line s).
Proof.
  unfold on_line; destruct (JSON_parse line).
  - eapply same_control_trans;
      [apply log_same_control | apply sendToWebSocket_same_control].
  - apply log_same_control.
Qed.

(** What a turn does to the options, the attempt counter and the socket. *)
Lemma step_frame (s s' : State) e :
  step s e s' ->
  options s' = options s /\
  reconnectAttempts s' = attempts_after e s /\
  match e with
  | EvLine _ | EvWsMessage _ | EvWsError | EvWsPong => ws_state s' = ws_state s
  | EvWsOpen => ws_state s' = Some OPEN
  | EvWsClosing => ws_state s' = Some CLOSING
  | EvWsClose => ws_state s' = Some CLOSED
  | EvStdinEnd | EvSignal _ => exit_code s' = Some 0%Z
  | EvTimer id _ =>
      match find_timer id s with
      | Some t => timer_kind t = HeartbeatInterval -> ws_state s' = ws_state s
      | None => ws_state s' = ws_state s
      end
  end.
Proof.
  intros Hs; destruct Hs as [s e fuel s' Hex Hen Ht].
  destruct e; simpl in Ht; try (injection Ht as <-); simpl attempts_after.
  - pose proof (on_line_same_control line s) as L.
    rewrite (sc_options _ _ L), (sc_reconnectAttempts _ _ L),
      (same_control_ws_state _ _ L); auto.
  - rewrite (turn_stdin_end s Hen).
    pose proof (log_same_control Stdin_closed (set_rl_closed true s)) as L.
    assert (Hex' : exit_code (log Stdin_closed (set_rl_closed true s)) = None)
      by (rewrite log_exit_code; assumption).
    pose proof (shutdown_spec _ Hex') as Sd.
    rewrite (sd_options _ _ Sd), (sd_reconnectAttempts _ _ Sd),
      (sc_options _ _ L), (sc_reconnectAttempts _ _ L), (sd_exit_code _ _ Sd).
    auto.
  - unfold on_signal.
    pose proof (log_same_control (Received_signal sig) s) as L.
    assert (Hex' : exit_code (log (Received_signal sig) s) = None)
      by (rewrite log_exit_code; assumption).
    pose proof (shutdown_spec _ Hex') as Sd.
    rewrite (sd_options _ _ Sd), (sd_reconnectAttempts _ _ Sd),
      (sc_options _ _ L), (sc_reconnectAttempts _ _ L), (sd_exit_code _ _ Sd).
    auto.
  - apply enabled_open_connecting in Hen. unfold ws_state in Hen.
    destruct (ws s) as [w|] eqn:Ew; [|discriminate].
    destruct (on_open_before_drain s w Ew) as (p & Hp & Op).
    specialize (Hp fuel); simpl in Hp; rewrite Hp in Ht.
    apply flushMessageQueue_same_control in Ht.
    rewrite (sc_options _ _ Ht), (sc_reconnectAttempts _ _ Ht),
      (same_control_ws_state _ _ Ht).
    destruct Op; auto.
  - unfold on_message; destruct (JSON_parse data); simpl;
      match goal with |- context [log ?l s] =>
        pose proof (log_same_control l s) as L end;
      unfold ws_state; simpl;
      rewrite (sc_options _ _ L), (sc_reconnectAttempts _ _ L), (sc_ws _ _ L);
      auto.
  - unfold on_error. pose proof (log_same_control WebSocket_error s) as L.
    rewrite (sc_options _ _ L), (sc_reconnectAttempts _ _ L),
      (same_control_ws_state _ _ L); auto.
  - unfold enabled, set_readyState, ws_state in *.
    destruct (ws s) as [w|]; simpl in *; [auto|discriminate].
  - apply enabled_close_live in Hen. revert Hen.
    split_state_ws s; intros H; try discriminate H; auto.
  - unfold on_pong. pose proof (log_same_control Received_pong s) as L.
    rewrite (sc_options _ _ L), (sc_reconnectAttempts _ _ L),
      (same_control_ws_state _ _ L); auto.
  - destruct (find_timer id s) as [t|] eqn:F; [|injection Ht as <-; auto].
    destruct (timer_kind t) eqn:K; injection Ht as <-.
    + split; [|split; [|discriminate]];
        destruct ctor_ok; split_state_ws s; reflexivity.
    + unfold heartbeat_callback. destruct (ws_open s); auto.
      pose proof (log_same_control Sending_ping s) as L.
      unfold ws_state; simpl.
      rewrite (sc_options _ _ L), (sc_reconnectAttempts _ _ L), (sc_ws _ _ L);
      auto.
Qed.

Lemma steps_exit (s s' : State) es :
  steps s es s' -> exit_code s' = None -> exit_code s = None.
Proof. intros H; destruct H as [|? ? ? ? ? [] _]; auto. Qed.

(** Between 'open' and 'close' the socket stays live and the counter stays
    at 0. *)
Lemma connected_run (s s' : State) es :
  steps s es s' -> ~ In EvWsClose es -> exit_code s' = None ->
  Inv s -> live (ws_state s) = true -> reconnectAttempts s = 0 ->
  Inv s' /\ live (ws_state s') = true /\ reconnectAttempts s' = 0 /\
  options s' = options s.
Proof.
  induction 1 as [s|s e s1 es s2 Hs Hss IH]; intros Hn Hex HI Hl Ha; auto.
  assert (Hex1 : exit_code s1 = None) by (eapply steps_exit; eassumption).
  assert (Hex0 : exit_code s = None) by (destruct Hs; assumption).
  assert (HI1 : Inv s1) by (eapply Inv_step; eassumption).
  destruct (step_frame _ _ _ Hs) as (Eo & Ea & Ew).
  assert (P : live (ws_state s1) = true /\ reconnectAttempts s1 = 0).
  { rewrite Ea. destruct e; simpl attempts_after;
      try (rewrite Ew; auto; fail); try congruence.
    - exfalso; apply Hn; left; reflexivity.
    - destruct (find_timer id s) as [t|] eqn:F; [|rewrite Ew; auto].
      apply find_timer_In in F as (Hin & _).
      destruct (live_no_retry s HI Hex0 Hl) as (_ & Hk).
      rewrite (Hk t Hin) in *. rewrite Ew; auto. }
  destruct P as (Hl1 & Ha1).
  destruct IH as (HI2 & Hl2 & Ha2 & Eo'); auto.
  - intros Hin; apply Hn; right; assumption.
  - split; [assumption|]. split; [assumption|]. split; [assumption|].
    congruence.
Qed.

Lemma on_close_arms (s : State) :
  Inv s -> exit_code s = None -> live (ws_state s) = true ->
  armed ReconnectTimeout (on_close (set_readyState CLOSED s)) =
    [mkTimer (next_timer s) ReconnectTimeout
             (reconnect_timeout (options s) (reconnectAttempts s))].
Proof.
  intros HI Hex Hl.
  destruct (close_before_schedule s HI Hex Hl)
    as (s4 & -> & HI4 & _ & _ & _ & Hr4 & Hn4 & Ho4 & Ha4 & _).
  destruct (scheduleReconnect_arms s4 Hr4) as (Et & _).
  rewrite (armed_app _ _ _ _ Et). fold (armed ReconnectTimeout s4).
  rewrite (armed_none_without_handle s4 HI4 Hr4), Hn4, Ho4, Ha4; reflexivity.
Qed.

(** C7.  The attempt counter is set to 0 by every 'open' turn, goes up by one
    exactly in the turns in which a retry timer fires, and is left alone by
    every other turn.  Hence, whatever happened before the socket opened,
    the counter is still 0 when the socket closes next, and that 'close' turn
    arms the one retry timer with the delay for attempt 0, which is 1000
    under the default options. *)
Theorem attempt_counter_reset_on_open :
  (forall (s s' : State) e, step s e s' ->
     reconnectAttempts s' = attempts_after e s) /\
  (forall (s0 s1 s2 s3 : State) es,
     reachable s0 -> step s0 EvWsOpen s1 ->
     steps s1 es s2 -> ~ In EvWsClose es ->
     step s2 EvWsClose s3 ->
     reconnectAttempts s1 = 0 /\ reconnectAttempts s2 = 0 /\
     armed ReconnectTimeout s3 =
       [mkTimer (next_timer s2) ReconnectTimeout
                (reconnect_timeout (options s0) 0)] /\
     (forall env, options s0 = build_options no_options env ->
        (reconnect_timeout (options s0) 0 == 1000)%Q)).
Proof.
  split.
  - intros s s' e Hs; apply (step_frame _ _ _ Hs).
  - intros s0 s1 s2 s3 es Hr Ho Hss Hn Hc.
    pose proof (reachable_Inv s0 Hr) as HI0.
    pose proof (Inv_step _ _ _ HI0 Ho) as HI1.
    destruct (step_frame _ _ _ Ho) as (Eo1 & Ea1 & Ew1).
    simpl in Ea1.
    assert (Hex2 : exit_code s2 = None) by (destruct Hc; assumption).
    destruct (connected_run _ _ _ Hss Hn Hex2 HI1) as (HI2 & Hl2 & Ha2 & Eo2);
      [rewrite Ew1; reflexivity | assumption |].
    repeat match goal with |- _ /\ _ => split end; auto.
    + inversion Hc as [s e fuel s' _ _ Ht]; subst.
      simpl in Ht; injection Ht as <-.
      rewrite (on_close_arms s2 HI2 Hex2 Hl2), Ha2, Eo2, Eo1; reflexivity.
    + intros env E; rewrite E; reflexivity.
Qed.

(** *** What a turn does to the wire, the queue and the outputs *)

Lemma open_turn_unfold (s : State) (w : WebSocket) :
  ws s = Some w ->
  exists p, (forall fuel, turn fuel EvWsOpen s = flushMessageQueue fuel p) /\
            opened s p /\ stdout p = stdout s /\ url p = url s /\
            pings p = pings s.
Proof.
  intros E.
  eexists; split; [intros fuel; unfold turn, on_open; reflexivity|].
  unfold_methods; rewrite E; simpl.
  split; [constructor|]; destruct (debug (options s)); simpl; auto.
Qed.

(** The result of the 'open' turn, whatever the fuel it was run with. *)
Lemma turn_open_result fuel (s s' : State) :
  enabled EvWsOpen s = true -> turn fuel EvWsOpen s = Some s' ->
  messageQueue s' = [] /\
  wire s' = wire s ++ map JSON_stringify (messageQueue s) /\
  isConnected s' = true /\ ws_state s' = Some OPEN /\
  stdout s' = stdout s /\ url s' = url s /\ pings s' = pings s /\
  heartbeatTimer s' = Some (next_timer s) /\
  timers s' = timers s ++
    [mkTimer (next_timer s) HeartbeatInterval (heartbeatInterval (options s))] /\
  reconnectTimer s' = reconnectTimer s /\ exit_code s' = exit_code s.
Proof.
  intros Hen Ht. apply enabled_open_connecting in Hen.
  unfold ws_state in Hen. destruct (ws s) as [w|] eqn:E; [|discriminate].
  destruct (open_turn_unfold s w E) as (p & Hp & Op & Eso & Eu & Epi).
  rewrite Hp in Ht.
  destruct (flushMessageQueue_open (messageQueue s) (List.length (messageQueue s)) p
              (op_messageQueue _ _ Op) (op_isConnected _ _ Op)
              (op_ws_open _ _ Op) (le_n _)) as (s'' & Hf & Hq & Hw & _).
  assert (Es : s'' = s').
  { pose proof (flushMessageQueue_fuel _ (Nat.max fuel (List.length (messageQueue s)))
                  _ _ Ht (Nat.le_max_l _ _)) as A.
    pose proof (flushMessageQueue_fuel _ (Nat.max fuel (List.length (messageQueue s)))
                  _ _ Hf (Nat.le_max_r _ _)) as B.
    congruence. }
  subst s''. pose proof (flushMessageQueue_same_control _ _ _ Ht) as Sc.
  rewrite Hq, Hw, (op_wire _ _ Op), (sc_isConnected _ _ Sc),
    (same_control_ws_state _ _ Sc), (sc_stdout _ _ Sc), (sc_url _ _ Sc),
    (sc_pings _ _ Sc), (sc_heartbeatTimer _ _ Sc), (sc_timers _ _ Sc),
    (sc_reconnectTimer _ _ Sc), (sc_exit_code _ _ Sc).
  destruct Op; repeat split; assumption.
Qed.

Lemma turn_reconnect_or_heartbeat (s s' : State) fuel id ctor_ok :
  turn fuel (EvTimer id ctor_ok) s = Some s' ->
  enabled (EvTimer id ctor_ok) s = true ->
  exists t, In t (timers s) /\ timer_id t = id /\
    ((timer_kind t = ReconnectTimeout /\
      s' = reconnect_callback ctor_ok (disarm id s)) \/
     (timer_kind t = HeartbeatInterval /\ s' = heartbeat_callback s)).
Proof.
  simpl; intros Ht Hen.
  destruct (find_timer id s) as [t|] eqn:F; [|discriminate].
  destruct (find_timer_In _ _ _ F) as (Hin & Eid).
  exists t; split; [assumption|]; split; [assumption|].
  destruct (timer_kind t); injection Ht as <-; auto.
Qed.

Lemma shutdown_url (s : State) : url (shutdown s) = url s.
Proof.
  destruct s as [? [? ? ? ? ? []] [[? ? ?]|] ? ? ? [?|] [?|] [] [] ? ? ? ? ? ? [?|]];
    reflexivity.
Qed.

(** Only a line of input and the drain of the 'open' turn touch the wire
    and the queue; only a frame from the socket touches stdout; the url is
    never assigned. *)
Lemma step_observed (s s' : State) e :
  step s e s' ->
  url s' = url s /\
  stdout s' = stdout s ++ map JSON_stringify (decoded_frames [e]) /\
  match e with
  | EvLine _ | EvWsOpen => True
  | _ => wire s' = wire s /\ messageQueue s' = messageQueue s
  end.
Proof.
  intros Hs; destruct Hs as [s e fuel s' Hex Hen Ht].
  destruct e; try (simpl in Ht; injection Ht as <-); simpl decoded_frames;
    rewrite ?app_nil_r.
  - pose proof (on_line_same_control line s) as L.
    rewrite (sc_url _ _ L), (sc_stdout _ _ L); auto.
  - rewrite (turn_stdin_end s Hen).
    assert (Hex' : exit_code (log Stdin_closed (set_rl_closed true s)) = None)
      by (rewrite log_exit_code; assumption).
    pose proof (shutdown_spec _ Hex') as Sd.
    rewrite (sd_stdout _ _ Sd), (sd_wire _ _ Sd), (sd_messageQueue _ _ Sd),
      log_wire, log_messageQueue,
      (sc_stdout _ _ (log_same_control _ _)), shutdown_url,
      (sc_url _ _ (log_same_control _ _)).
    auto.
  - unfold on_signal.
    assert (Hex' : exit_code (log (Received_signal sig) s) = None)
      by (rewrite log_exit_code; assumption).
    pose proof (shutdown_spec _ Hex') as Sd.
    rewrite (sd_stdout _ _ Sd), (sd_wire _ _ Sd), (sd_messageQueue _ _ Sd),
      log_wire, log_messageQueue,
      (sc_stdout _ _ (log_same_control _ _)), shutdown_url,
      (sc_url _ _ (log_same_control _ _)).
    auto.
  - destruct (turn_open_result _ _ _ Hen Ht)
      as (_ & _ & _ & _ & Eso & Eu & _). auto.
  - unfold on_message, sendToStdout.
    destruct (JSON_parse data) as [m|]; simpl; rewrite ?app_nil_r;
      match goal with |- context [log ?l s] =>
        pose proof (log_same_control l s) as L end;
      rewrite ?(sc_url _ _ L), ?(sc_stdout _ _ L), ?log_wire,
        ?log_messageQueue; auto.
  - unfold on_error. pose proof (log_same_control WebSocket_error s) as L.
    rewrite (sc_url _ _ L), (sc_stdout _ _ L), log_wire, log_messageQueue; auto.
  - unfold set_readyState. destruct (ws s); simpl; auto.
  - clear; split_state_ws s; auto.
  - unfold on_pong. pose proof (log_same_control Received_pong s) as L.
    rewrite (sc_url _ _ L), (sc_stdout _ _ L), log_wire, log_messageQueue; auto.
  - destruct (turn_reconnect_or_heartbeat _ _ _ _ _ Ht Hen)
      as (t & _ & _ & [[_ ->]|[_ ->]]).
    + clear; destruct ctor_ok; split_state_ws s; auto.
    + clear; unfold heartbeat_callback. destruct (ws_open s); auto.
      pose proof (log_same_control Sending_ping s) as L.
      simpl. rewrite (sc_url _ _ L), (sc_stdout _ _ L), log_wire,
        log_messageQueue; auto.
Qed.

(** *** Nothing typed is lost, doubled or reordered *)

Lemma not_open_after_close (w : WebSocket) :
  ReadyState_eqb (readyState (WebSocket_close w)) OPEN = false.
Proof. destruct w as [? ? []]; reflexivity. Qed.

Lemma queue_ok_step (s s' : State) e :
  queue_ok s -> step s e s' -> queue_ok s'.
Proof.
  intros Hq Hs. pose proof (step_observed _ _ _ Hs) as (_ & _ & Hwq).
  destruct Hs as [s e fuel s' Hex Hen Ht].
  destruct e; try (simpl in Ht; injection Ht as <-).
  - pose proof (on_line_same_control line s) as L.
    unfold queue_ok. rewrite (sc_isConnected _ _ L), (same_control_ws_open _ _ L).
    intros Hc Ho. unfold on_line. destruct (JSON_parse line) as [m|].
    + set (s1 := log _ s).
      assert (Hc1 : isConnected s1 = true)
        by (subst s1; rewrite (sc_isConnected _ _ (log_same_control _ _));
            assumption).
      assert (Ho1 : ws_open s1 = true)
        by (subst s1; rewrite (same_control_ws_open _ _ (log_same_control _ _));
            assumption).
      destruct (sendToWebSocket_ready m s1 Hc1 Ho1) as (_ & -> & _).
      subst s1; rewrite log_messageQueue; auto.
    + rewrite log_messageQueue; auto.
  - rewrite (turn_stdin_end s Hen).
    assert (Hex' : exit_code (log Stdin_closed (set_rl_closed true s)) = None)
      by (rewrite log_exit_code; assumption).
    pose proof (shutdown_spec _ Hex') as Sd.
    unfold queue_ok, ws_open. rewrite (sd_ws _ _ Sd).
    destruct (ws _) as [w|]; simpl; [rewrite not_open_after_close|];
      discriminate.
  - unfold on_signal.
    assert (Hex' : exit_code (log (Received_signal sig) s) = None)
      by (rewrite log_exit_code; assumption).
    pose proof (shutdown_spec _ Hex') as Sd.
    unfold queue_ok, ws_open. rewrite (sd_ws _ _ Sd).
    destruct (ws _) as [w|]; simpl; [rewrite not_open_after_close|];
      discriminate.
  - destruct (turn_open_result _ _ _ Hen Ht) as (E & _). intros _ _; exact E.
  - destruct Hwq as (_ & Eq). revert Hq; unfold queue_ok. rewrite Eq.
    unfold on_message, sendToStdout, ws_open.
    destruct (JSON_parse data); simpl;
      match goal with |- context [log ?l s] =>
        pose proof (log_same_control l s) as L end;
      rewrite (sc_isConnected _ _ L), (sc_ws _ _ L); auto.
  - destruct Hwq as (_ & Eq). revert Hq; unfold queue_ok. rewrite Eq.
    unfold on_error. pose proof (log_same_control WebSocket_error s) as L.
    rewrite (sc_isConnected _ _ L), (same_control_ws_open _ _ L); auto.
  - unfold queue_ok, set_readyState, ws_open. destruct (ws s); simpl;
      [intros _ F; discriminate F | exact Hq].
  - clear; unfold queue_ok; split_state_ws s; discriminate.
  - destruct Hwq as (_ & Eq). revert Hq; unfold queue_ok. rewrite Eq.
    unfold on_pong. pose proof (log_same_control Received_pong s) as L.
    rewrite (sc_isConnected _ _ L), (same_control_ws_open _ _ L); auto.
  - destruct (turn_reconnect_or_heartbeat _ _ _ _ _ Ht Hen)
      as (t & _ & _ & [[_ ->]|[_ ->]]).
    + revert Hq; clear; unfold queue_ok; destruct ctor_ok; split_state_ws s;
        auto; discriminate.
    + unfold heartbeat_callback. destruct (ws_open s) eqn:Ho; [|exact Hq].
      pose proof (log_same_control Sending_ping s) as L.
      unfold queue_ok, ws_open; simpl.
      rewrite (sc_isConnected _ _ L), (sc_ws _ _ L), log_messageQueue.
      exact Hq.
Qed.

Lemma outbound_step (s s' : State) e :
  queue_ok s -> step s e s' ->
  outbound s' = outbound s ++ map JSON_stringify (decoded_lines [e]).
Proof.
  intros Hq Hs. pose proof (step_observed _ _ _ Hs) as (_ & _ & Hwq).
  destruct Hs as [s e fuel s' Hex Hen Ht]. unfold outbound.
  destruct e; simpl decoded_lines; rewrite ?app_nil_r;
    try (destruct Hwq as (-> & ->); reflexivity).
  - simpl in Ht; injection Ht as <-. unfold on_line.
    destruct (JSON_parse line) as [m|]; simpl;
      [|rewrite log_wire, log_messageQueue, app_nil_r; reflexivity].
    set (s1 := log _ s).
    pose proof (log_same_control (Received_from_stdin m) s) as L.
    destruct (not_ready_cases s) as [[Hc Ho]|Hn].
    + assert (Hc1 : isConnected s1 = true)
        by (subst s1; rewrite (sc_isConnected _ _ L); assumption).
      assert (Ho1 : ws_open s1 = true)
        by (subst s1; rewrite (same_control_ws_open _ _ L); assumption).
      destruct (sendToWebSocket_ready m s1 Hc1 Ho1) as (-> & -> & _).
      subst s1; rewrite log_wire, log_messageQueue, (Hq Hc Ho); simpl.
      rewrite !app_nil_r; reflexivity.
    + assert (Hn1 : isConnected s1 = false \/ ws_open s1 = false)
        by (subst s1; rewrite (sc_isConnected _ _ L),
              (same_control_ws_open _ _ L); assumption).
      destruct (sendToWebSocket_not_ready m s1 Hn1) as (-> & -> & _).
      subst s1; rewrite log_wire, log_messageQueue, map_app, app_assoc.
      reflexivity.
  - destruct (turn_open_result _ _ _ Hen Ht) as (-> & -> & _).
    simpl; rewrite app_nil_r; reflexivity.
Qed.

Lemma decoded_lines_cons e es :
  decoded_lines (e :: es) = decoded_lines [e] ++ decoded_lines es.
Proof. unfold decoded_lines; simpl; rewrite app_nil_r; reflexivity. Qed.

Lemma decoded_frames_cons e es :
  decoded_frames (e :: es) = decoded_frames [e] ++ decoded_frames es.
Proof. unfold decoded_frames; simpl; rewrite app_nil_r; reflexivity. Qed.

Lemma outbound_steps (s s' : State) es :
  steps s es s' -> queue_ok s ->
  queue_ok s' /\
  outbound s' = outbound s ++ map JSON_stringify (decoded_lines es).
Proof.
  induction 1 as [s|s e s1 es s2 Hs _ IH]; intros Hq.
  - split; [assumption|]. simpl; rewrite app_nil_r; reflexivity.
  - destruct (IH (queue_ok_step _ _ _ Hq Hs)) as (Hq2 & E).
    split; [assumption|].
    rewrite (decoded_lines_cons e es), map_app, app_assoc, E,
      (outbound_step _ _ _ Hq Hs); reflexivity.
Qed.

Lemma start_observed u o env ctor_ok (s0 : State) :
  new_bridge u o env = Some s0 ->
  wire (start ctor_ok s0) = [] /\ messageQueue (start ctor_ok s0) = [] /\
  stdout (start ctor_ok s0) = [] /\ url (start ctor_ok s0) = u /\
  options (start ctor_ok s0) = build_options o env /\
  pings (start ctor_ok s0) = 0 /\ exit_code (start ctor_ok s0) = None /\
  isConnected (start ctor_ok s0) = false /\
  heartbeatTimer (start ctor_ok s0) = None.
Proof.
  unfold new_bridge. destruct (String.eqb u EmptyString); [discriminate|].
  intros E; injection E as <-.
  destruct (build_options o env) as [? ? ? ? ? []]; destruct ctor_ok;
    compute_state; repeat split.
Qed.

(** X1.  In every execution the frames written to the socket, followed by
    the messages still queued, are exactly the messages decoded from the
    lines of input so far, in the order of arrival: none is lost, doubled or
    overtaken, whatever the socket did in between.  In particular the frames
    written are a prefix of what was typed, and while the bridge can write to
    the socket nothing is queued. *)
Theorem outbound_is_input_in_order :
  forall (es : list Event) (s : State),
  execution es s ->
  wire s ++ map JSON_stringify (messageQueue s)
    = map JSON_stringify (decoded_lines es) /\
  (isConnected s = true -> ws_open s = true -> messageQueue s = []).
Proof.
  intros es s (u & o & env & ok & s0 & E & Hs).
  destruct (start_observed u o env ok s0 E) as (Ew & Eq & _).
  assert (Q0 : queue_ok (start ok s0)) by (intros _ _; exact Eq).
  destruct (outbound_steps _ _ _ Hs Q0) as (Q & O).
  split; [|exact Q].
  unfold outbound in O; rewrite O, Ew, Eq; reflexivity.
Qed.

(** X2.  In every execution stdout holds exactly the messages decoded from
    the frames the socket delivered, re-encoded, in the order of arrival:
    a frame that does not decode writes nothing, and no other turn (a log
    line, a line of input, a timer, a shutdown) ever writes to stdout. *)
Theorem stdout_is_frames_in_order :
  forall (es : list Event) (s : State),
  execution es s ->
  stdout s = map JSON_stringify (decoded_frames es).
Proof.
  intros es s (u & o & env & ok & s0 & E & Hs).
  destruct (start_observed u o env ok s0 E) as (_ & _ & Eso & _).
  rewrite <- (app_nil_l (map _ _)), <- Eso.
  clear E Eso; induction Hs as [s|s e s1 es s2 Hs _ IH].
  - simpl; rewrite app_nil_r; reflexivity.
  - destruct (step_observed _ _ _ Hs) as (_ & Eo & _).
    rewrite (decoded_frames_cons e es), map_app, app_assoc, IH, Eo;
      reflexivity.
Qed.

(** *** The socket, the retry and the heartbeat along an execution *)

Lemma scheduleReconnect_keeps (s : State) :
  url (scheduleReconnect s) = url s /\
  options (scheduleReconnect s) = options s /\
  ws (scheduleReconnect s) = ws s /\
  reconnectAttempts (scheduleReconnect s) = reconnectAttempts s /\
  isConnected (scheduleReconnect s) = isConnected s /\
  heartbeatTimer (scheduleReconnect s) = heartbeatTimer s /\
  exit_code (scheduleReconnect s) = exit_code s /\
  pings (scheduleReconnect s) = pings s.
Proof. split_state_ws s; repeat split. Qed.

Lemma quiet_step (s s' : State) e :
  step s e s' -> quiet e s = true -> control s' = control s.
Proof.
  intros Hs Hq; destruct Hs as [s e fuel s' Hex Hen Ht].
  destruct e; try discriminate Hq; simpl in Ht.
  - injection Ht as <-. pose proof (on_line_same_control line s) as L.
    unfold control.
    rewrite (sc_url _ _ L), (sc_options _ _ L), (sc_ws _ _ L),
      (sc_reconnectAttempts _ _ L), (sc_isConnected _ _ L),
      (sc_heartbeatTimer _ _ L), (sc_reconnectTimer _ _ L),
      (sc_timers _ _ L), (sc_exit_code _ _ L); reflexivity.
  - injection Ht as <-. unfold on_message, control.
    destruct (JSON_parse data); clear; split_state_ws s; reflexivity.
  - injection Ht as <-. clear; unfold control; split_state_ws s; reflexivity.
  - injection Ht as <-. clear; unfold control; split_state_ws s; reflexivity.
  - simpl in Hq. destruct (find_timer id s) as [t|];
      [|injection Ht as <-; reflexivity].
    destruct (timer_kind t); [discriminate Hq|]. injection Ht as <-.
    clear; unfold control; split_state s; reflexivity.
Qed.

Lemma control_fields (s s' : State) :
  control s' = control s ->
  url s' = url s /\ options s' = options s /\ ws s' = ws s /\
  reconnectAttempts s' = reconnectAttempts s /\
  isConnected s' = isConnected s /\ heartbeatTimer s' = heartbeatTimer s /\
  reconnectTimer s' = reconnectTimer s /\ timers s' = timers s /\
  exit_code s' = exit_code s.
Proof. unfold control; intros E; injection E; intros; repeat split; auto. Qed.

Lemma reconnect_fired_result ctor_ok id (s : State) :
  let s' := reconnect_callback ctor_ok (disarm id s) in
  url s' = url s /\ options s' = options s /\
  isConnected s' = isConnected s /\ heartbeatTimer s' = heartbeatTimer s /\
  exit_code s' = exit_code s /\ pings s' = pings s /\
  reconnectAttempts s' = reconnectAttempts s + 1 /\
  if ctor_ok
  then ws s' = Some (mkWebSocket (url s) (auth_header (options s)) CONNECTING)
  else ws s' = ws s /\ reconnectTimer s' = Some (next_timer s) /\
       timers s' = remove_timer id (timers s) ++
         [mkTimer (next_timer s) ReconnectTimeout
            (reconnect_timeout (options s) (reconnectAttempts s + 1))].
Proof.
  unfold auth_header; destruct ctor_ok; split_state_ws s; repeat split.
Qed.

Lemma close_result (s : State) :
  reconnectTimer s = None ->
  let s' := on_close (set_readyState CLOSED s) in
  url s' = url s /\ options s' = options s /\
  ws s' = option_map (WebSocket_set_readyState CLOSED) (ws s) /\
  reconnectAttempts s' = reconnectAttempts s /\
  isConnected s' = false /\ heartbeatTimer s' = None /\
  exit_code s' = exit_code s /\ pings s' = pings s /\
  reconnectTimer s' = Some (next_timer s) /\
  In (mkTimer (next_timer s) ReconnectTimeout
              (reconnect_timeout (options s) (reconnectAttempts s)))
     (timers s').
Proof.
  intros Hr; revert Hr; split_state_ws s; intros Hr; try discriminate Hr;
    repeat split; apply in_or_app; right; left; reflexivity.
Qed.

Lemma turn_open_socket fuel (s s' : State) :
  enabled EvWsOpen s = true -> turn fuel EvWsOpen s = Some s' ->
  options s' = options s /\
  exists w, ws s = Some w /\ ws s' = Some (WebSocket_set_readyState OPEN w).
Proof.
  intros Hen Ht. simpl in Ht. unfold on_open in Ht.
  pose proof (flushMessageQueue_same_control _ _ _ Ht) as L.
  rewrite (sc_options _ _ L), (sc_ws _ _ L).
  apply enabled_open_connecting in Hen. revert Hen; clear.
  split_state_ws s; intros Hen; try discriminate Hen.
  all: split; [reflexivity|eexists; split; reflexivity].
Qed.

Lemma socket_ok_step (s s' : State) e :
  Inv s -> socket_ok s -> step s e s' -> socket_ok s'.
Proof.
  intros HI Hk Hs. destruct (quiet e s) eqn:Q.
  { destruct (control_fields _ _ (quiet_step _ _ _ Hs Q))
      as (Eu & Eo & Ew & _).
    unfold socket_ok; rewrite Eu, Eo, Ew; exact Hk. }
  pose proof (step_observed _ _ _ Hs) as (Eu & _).
  destruct Hs as [s e fuel s' Hex Hen Ht].
  destruct e; try discriminate Q; simpl in Ht.
  - injection Ht as <-. rewrite (turn_stdin_end s Hen) in *.
    assert (Hex' : exit_code (log Stdin_closed (set_rl_closed true s)) = None)
      by (rewrite log_exit_code; assumption).
    pose proof (shutdown_spec _ Hex') as Sd.
    unfold socket_ok. rewrite Eu, (sd_options _ _ Sd), (sd_ws _ _ Sd).
    revert Hk; clear; unfold socket_ok; split_state s; intros Hk w' E;
      try discriminate E; injection E as <-; apply (Hk _ eq_refl).
  - injection Ht as <-. unfold on_signal in *.
    assert (Hex' : exit_code (log (Received_signal sig) s) = None)
      by (rewrite log_exit_code; assumption).
    pose proof (shutdown_spec _ Hex') as Sd.
    unfold socket_ok. rewrite Eu, (sd_options _ _ Sd), (sd_ws _ _ Sd).
    revert Hk; clear; unfold socket_ok; split_state s; intros Hk w' E;
      try discriminate E; injection E as <-; apply (Hk _ eq_refl).
  - destruct (turn_open_socket _ _ _ Hen Ht) as (Eo & w & Ew & Ew').
    unfold socket_ok. rewrite Eu, Eo, Ew'. intros w' E; injection E as <-.
    destruct w; apply (Hk _ Ew).
  - injection Ht as <-. revert Hk; clear; unfold socket_ok; split_state_ws s;
      intros Hk w' E; try discriminate E; injection E as <-;
      apply (Hk _ eq_refl).
  - injection Ht as <-.
    destruct (live_no_retry s HI Hex (enabled_close_live s Hen)) as (Hr & _).
    destruct (close_result s Hr) as (_ & Eo & Ew & _).
    unfold socket_ok. rewrite Eu, Eo, Ew. intros w' E.
    destruct (ws s) as [w|] eqn:W; [|discriminate E]. injection E as <-.
    destruct w; apply (Hk _ W).
  - simpl in Q. destruct (find_timer id s) as [t|] eqn:F; [|discriminate Q].
    destruct (timer_kind t) eqn:K; [|discriminate Q]. injection Ht as <-.
    destruct (reconnect_fired_result ctor_ok id s)
      as (Eu' & Eo & _ & _ & _ & _ & _ & Ew).
    unfold socket_ok. rewrite Eu', Eo. destruct ctor_ok.
    + rewrite Ew. intros w' E; injection E as <-. split; reflexivity.
    + destruct Ew as (-> & _). exact Hk.
Qed.

Lemma step_exits (s s' : State) e :
  step s e s' ->
  match e with
  | EvStdinEnd | EvSignal _ => exit_code s' = Some 0%Z
  | _ => exit_code s' = None
  end.
Proof.
  intros Hs. destruct (quiet e s) eqn:Q.
  { destruct (control_fields _ _ (quiet_step _ _ _ Hs Q))
      as (_ & _ & _ & _ & _ & _ & _ & _ & Ee).
    destruct Hs as [s e fuel s' Hex Hen Ht]. rewrite Ee, Hex.
    destruct e; try discriminate Q; reflexivity. }
  destruct Hs as [s e fuel s' Hex Hen Ht].
  destruct e; try discriminate Q; simpl in Ht.
  - injection Ht as <-. rewrite (turn_stdin_end s Hen).
    apply shutdown_spec. rewrite log_exit_code; assumption.
  - injection Ht as <-. apply shutdown_spec.
    rewrite log_exit_code; assumption.
  - destruct (turn_open_result _ _ _ Hen Ht)
      as (_ & _ & _ & _ & _ & _ & _ & _ & _ & _ & ->). assumption.
  - injection Ht as <-. revert Hex; clear; split_state_ws s; auto.
  - injection Ht as <-. revert Hex; clear; split_state_ws s; auto.
  - simpl in Q. destruct (find_timer id s) as [t|] eqn:F; [|discriminate Q].
    destruct (timer_kind t) eqn:K; [|discriminate Q]. injection Ht as <-.
    destruct (reconnect_fired_result ctor_ok id s)
      as (_ & _ & _ & _ & -> & _). assumption.
Qed.

Lemma retry_ok_step (s s' : State) e :
  Inv s -> retry_ok s -> step s e s' -> retry_ok s'.
Proof.
  intros HI Hk Hs. destruct (quiet e s) eqn:Q.
  { destruct (control_fields _ _ (quiet_step _ _ _ Hs Q))
      as (_ & Eo & Ew & Ea & _ & _ & Er & Et & Ee).
    unfold retry_ok, ws_state; rewrite Eo, Ew, Ea, Er, Et, Ee; exact Hk. }
  pose proof (step_exits _ _ _ Hs) as Hx.
  destruct Hs as [s e fuel s' Hex Hen Ht].
  destruct e; try discriminate Q; simpl in Ht;
    try (intros F; rewrite Hx in F; discriminate F).
  - destruct (turn_open_result _ _ _ Hen Ht) as (_ & _ & _ & Ew & _).
    intros _; rewrite Ew; discriminate.
  - injection Ht as <-. revert Hen; clear; unfold retry_ok.
    split_state s; intros Hen; try discriminate Hen; intros _ F;
      discriminate F.
  - injection Ht as <-.
    destruct (live_no_retry s HI Hex (enabled_close_live s Hen)) as (Hr & _).
    destruct (close_result s Hr)
      as (_ & Eo & _ & Ea & _ & _ & _ & _ & Er & Hin).
    intros _ _. exists (next_timer s). rewrite Eo, Ea. split; assumption.
  - simpl in Q. destruct (find_timer id s) as [t|] eqn:F; [|discriminate Q].
    destruct (timer_kind t) eqn:K; [|discriminate Q]. injection Ht as <-.
    destruct (reconnect_fired_result ctor_ok id s)
      as (_ & Eo & _ & _ & _ & _ & Ea & Ew).
    unfold retry_ok, ws_state. rewrite Eo, Ea. destruct ctor_ok.
    + rewrite Ew. intros _ L; discriminate L.
    + destruct Ew as (_ & -> & ->). intros _ _. exists (next_timer s).
      split; [reflexivity|]. apply in_or_app; right; left; reflexivity.
Qed.

Lemma heartbeat_ok_step (s s' : State) e :
  Inv s -> heartbeat_ok s -> step s e s' -> heartbeat_ok s'.
Proof.
  intros HI Hk Hs. destruct (quiet e s) eqn:Q.
  { destruct (control_fields _ _ (quiet_step _ _ _ Hs Q))
      as (_ & Eo & _ & _ & Ec & Eh & _ & Et & Ee).
    unfold heartbeat_ok; rewrite Eo, Ec, Eh, Et, Ee; exact Hk. }
  pose proof (step_exits _ _ _ Hs) as Hx.
  destruct Hs as [s e fuel s' Hex Hen Ht].
  destruct e; try discriminate Q; simpl in Ht;
    try (intros F; rewrite Hx in F; discriminate F).
  - destruct (turn_open_socket _ _ _ Hen Ht) as (Eo & _).
    destruct (turn_open_result _ _ _ Hen Ht)
      as (_ & _ & Ec & _ & _ & _ & _ & Eh & Et & _).
    intros _. rewrite Ec, Eh, Et, Eo. split.
    + split; [discriminate | reflexivity].
    + intros id E; injection E as <-. apply in_or_app; right; left;
        reflexivity.
  - injection Ht as <-. revert Hk; clear; unfold heartbeat_ok.
    split_state_ws s; auto.
  - injection Ht as <-.
    destruct (live_no_retry s HI Hex (enabled_close_live s Hen)) as (Hr & _).
    destruct (close_result s Hr) as (_ & _ & _ & _ & Ec & Eh & _).
    intros _. rewrite Ec, Eh. split.
    + split; [discriminate | intros F; contradiction F; reflexivity].
    + discriminate.
  - simpl in Q. destruct (find_timer id s) as [t|] eqn:F; [|discriminate Q].
    destruct (timer_kind t) eqn:K; [|discriminate Q]. injection Ht as <-.
    apply find_timer_In in F as (Hin & Hid).
    assert (Hr : reconnectTimer s = Some (timer_id t))
      by (destruct HI as ((_ & _ & Hr & _) & _); auto).
    assert (Hl : live (ws_state s) = false)
      by (destruct HI as (_ & HL); apply HL; [assumption|congruence]).
    assert (Hu : up (ws_state s) = false)
      by (destruct (ws_state s) as [[]|]; try reflexivity; discriminate).
    destruct (not_up_disconnected s HI Hex Hu) as (Hc & Hh & _).
    destruct (reconnect_fired_result ctor_ok id s)
      as (_ & _ & Ec & Eh & _).
    intros _. rewrite Ec, Eh, Hc, Hh. split.
    + split; [discriminate | intros G; contradiction G; reflexivity].
    + discriminate.
Qed.

Lemma start_shape u o env ctor_ok (s0 : State) :
  new_bridge u o env = Some s0 ->
  rl_listening (start ctor_ok s0) = true /\
  ws_state (start ctor_ok s0) = (if ctor_ok then Some CONNECTING else None) /\
  (ctor_ok = false ->
   timers (start ctor_ok s0) =
     [mkTimer 0 ReconnectTimeout (reconnect_timeout (build_options o env) 0)]).
Proof.
  unfold new_bridge. destruct (String.eqb u EmptyString); [discriminate|].
  intros E; injection E as <-. unfold reconnect_timeout.
  destruct (build_options o env) as [? ? ? ? ? []]; destruct ctor_ok;
    compute_state; repeat split; discriminate.
Qed.

Lemma start_wired u o env ctor_ok (s0 : State) :
  new_bridge u o env = Some s0 ->
  socket_ok (start ctor_ok s0) /\ retry_ok (start ctor_ok s0) /\
  heartbeat_ok (start ctor_ok s0).
Proof.
  unfold new_bridge. destruct (String.eqb u EmptyString); [discriminate|].
  intros E; injection E as <-.
  unfold socket_ok, retry_ok, heartbeat_ok, auth_header.
  destruct (build_options o env) as [? ? ? ? ? []]; destruct ctor_ok;
    compute_state; (split; [|split]).
  all: try (intros w E; injection E as <-; split; reflexivity).
  all: try (intros w E; discriminate E).
  all: try (intros _ F; discriminate F).
  all: try (intros _ _; exists 0; split; [reflexivity|]; simpl; auto).
  all: intros _; split; [split; [discriminate|intros F; contradiction F;
    reflexivity] | discriminate].
Qed.

Lemma reachable_wired (s : State) :
  reachable s -> socket_ok s /\ retry_ok s /\ heartbeat_ok s.
Proof.
  induction 1 as [u o env ok s0 E | s e s' Hr (IH1 & IH2 & IH3) Hs].
  - eapply start_wired; eassumption.
  - pose proof (reachable_Inv _ Hr) as HI. split; [|split].
    + eapply socket_ok_step; eassumption.
    + eapply retry_ok_step; eassumption.
    + eapply heartbeat_ok_step; eassumption.
Qed.

Lemma steps_url_options (s s' : State) es :
  steps s es s' -> Inv s -> socket_ok s ->
  url s' = url s /\ options s' = options s /\ socket_ok s'.
Proof.
  induction 1 as [s|s e s1 es s2 Hs _ IH]; intros HI Hk; [auto|].
  destruct (IH (Inv_step _ _ _ HI Hs) (socket_ok_step _ _ _ HI Hk Hs))
    as (-> & -> & K). split; [|split]; [| |exact K].
  - apply (step_observed _ _ _ Hs).
  - clear IH K. destruct (quiet e s) eqn:Q.
    { apply (control_fields _ _ (quiet_step _ _ _ Hs Q)). }
    destruct Hs as [s e fuel s' Hex Hen Ht].
    destruct e; try discriminate Q; simpl in Ht.
    + injection Ht as <-. rewrite (turn_stdin_end s Hen).
      assert (Hex' : exit_code (log Stdin_closed (set_rl_closed true s)) = None)
        by (rewrite log_exit_code; assumption).
      rewrite (sd_options _ _ (shutdown_spec _ Hex')).
      clear; split_state_ws s; reflexivity.
    + injection Ht as <-. unfold on_signal.
      assert (Hex' : exit_code (log (Received_signal sig) s) = None)
        by (rewrite log_exit_code; assumption).
      rewrite (sd_options _ _ (shutdown_spec _ Hex')).
      clear; split_state_ws s; reflexivity.
    + apply (turn_open_socket _ _ _ Hen Ht).
    + injection Ht as <-. clear; split_state_ws s; reflexivity.
    + injection Ht as <-. clear; split_state_ws s; reflexivity.
    + simpl in Q. destruct (find_timer id s) as [t|] eqn:F; [|discriminate Q].
      destruct (timer_kind t) eqn:K; [|discriminate Q]. injection Ht as <-.
      apply (reconnect_fired_result ctor_ok id s).
Qed.

Lemma one_armed k (s : State) (t : Timer) :
  Inv s -> In t (timers s) -> timer_kind t = k -> armed k s = [t].
Proof.
  intros HI Hin K. pose proof (armed_at_most_one k s HI) as Hle.
  assert (Ha : In t (armed k s)).
  { unfold armed; apply filter_In; split; [assumption|].
    rewrite K; destruct k; reflexivity. }
  destruct (armed k s) as [|a [|b l]]; simpl in *;
    [contradiction | destruct Ha as [->|[]]; reflexivity | lia].
Qed.

(** X3.  Every socket the bridge holds in an execution, the first one and
    each one built by a retry, was opened to the url given to the
    constructor and carries the header [Authorization: Bearer <token>]
    exactly when a non-empty token is configured (by option or by
    AUTH_TOKEN); the url and the options are never changed by a turn. *)
Theorem sockets_use_configured_url_and_token :
  forall u o env ctor_ok (s0 s : State) (es : list Event),
  new_bridge u o env = Some s0 ->
  steps (start ctor_ok s0) es s ->
  url s = u /\ options s = build_options o env /\
  forall w, ws s = Some w ->
    ws_url w = u /\
    ws_authorization w =
      match str_or (u_token o) (AUTH_TOKEN env) with
      | Some EmptyString | None => None
      | Some t => Some ("Bearer " ++ t)%string
      end.
Proof.
  intros u o env ok s0 s es E Hs.
  destruct (start_observed u o env ok s0 E) as (_ & _ & _ & Eu & Eo & _).
  destruct (start_wired u o env ok s0 E) as (K & _).
  pose proof (Inv_start _ _ _ ok _ E) as HI.
  destruct (steps_url_options _ _ _ Hs HI K) as (Eu' & Eo' & K').
  rewrite Eu in Eu'; rewrite Eo in Eo'. split; [|split]; [assumption..|].
  intros w W. destruct (K' w W) as (-> & ->).
  rewrite Eu', Eo'; split; reflexivity.
Qed.

(** X4.  Whenever, in an execution, the process runs and no socket is live
    (none was built, or the last one is closed), exactly one retry timer is
    armed: the one [reconnectTimer] names, with the delay computed from the
    current attempt counter.  The bridge is never left without a socket and
    without a pending retry. *)
Theorem retry_pending_while_no_live_socket :
  forall s : State,
  reachable s -> exit_code s = None -> live (ws_state s) = false ->
  exists id, reconnectTimer s = Some id /\
    armed ReconnectTimeout s =
      [mkTimer id ReconnectTimeout
               (reconnect_timeout (options s) (reconnectAttempts s))].
Proof.
  intros s Hr Hex Hl. destruct (reachable_wired s Hr) as (_ & K & _).
  destruct (K Hex Hl) as (id & E & Hin). exists id. split; [assumption|].
  apply one_armed; [apply reachable_Inv; assumption | assumption | reflexivity].
Qed.

(** X5.  While the process runs, in an execution, the heartbeat follows the
    connected flag: the flag is on exactly when [heartbeatTimer] is set;
    while it is on the socket is OPEN or CLOSING and exactly one heartbeat
    interval is armed, with the configured period; while it is off none
    is. *)
Theorem heartbeat_armed_iff_connected :
  forall s : State,
  reachable s -> exit_code s = None ->
  (isConnected s = true <-> heartbeatTimer s <> None) /\
  (isConnected s = true ->
     up (ws_state s) = true /\
     exists id, heartbeatTimer s = Some id /\
       armed HeartbeatInterval s =
         [mkTimer id HeartbeatInterval (heartbeatInterval (options s))]) /\
  (isConnected s = false -> armed HeartbeatInterval s = []).
Proof.
  intros s Hr Hex. destruct (reachable_wired s Hr) as (_ & _ & K).
  pose proof (reachable_Inv _ Hr) as HI.
  destruct (K Hex) as (Hiff & Harm). split; [exact Hiff|]. split.
  - intros Hc. split.
    + destruct HI as (_ & HL). apply (HL Hex); left; assumption.
    + destruct (heartbeatTimer s) as [id|] eqn:Eh;
        [|exfalso; apply (proj1 Hiff Hc); reflexivity].
      exists id. split; [reflexivity|].
      apply one_armed; [assumption | apply Harm; reflexivity | reflexivity].
  - intros Hc. destruct (armed HeartbeatInterval s) as [|t l] eqn:Ea;
      [reflexivity|exfalso].
    assert (Hin : In t (armed HeartbeatInterval s))
      by (rewrite Ea; left; reflexivity).
    unfold armed in Hin; apply filter_In in Hin as (Hin & Hk).
    destruct HI as ((_ & _ & _ & Hh) & _).
    assert (E : heartbeatTimer s = Some (timer_id t))
      by (apply Hh; [assumption|destruct (timer_kind t); [discriminate|
          reflexivity]]).
    assert (isConnected s = true) by (apply Hiff; congruence). congruence.
Qed.

(** *** Messages queued while disconnected *)

Lemma shutdown_isConnected (s : State) :
  isConnected (shutdown s) = isConnected s.
Proof.
  destruct s as [? [? ? ? ? ? []] [[? ? ?]|] ? ? ? [?|] [?|] [] [] ? ? ? ? ? ? [?|]];
    reflexivity.
Qed.

(** A turn other than 'open' on a disconnected bridge: the flag stays off,
    nothing is written to the socket, and the queue gains the message of a
    line that decodes and is otherwise left as it is. *)
Lemma disconnected_step (s s' : State) e :
  step s e s' -> isConnected s = false -> e <> EvWsOpen ->
  isConnected s' = false /\ wire s' = wire s /\
  messageQueue s' = messageQueue s ++ decoded_lines [e].
Proof.
  intros Hs Hc Hne.
  pose proof (step_observed _ _ _ Hs) as (_ & _ & Hwq).
  assert (Hc' : isConnected s' = false).
  { destruct (quiet e s) eqn:Q.
    { destruct (control_fields _ _ (quiet_step _ _ _ Hs Q))
        as (_ & _ & _ & _ & -> & _). exact Hc. }
    destruct Hs as [s e fuel s' Hex Hen Ht].
    destruct e; try discriminate Q; simpl in Ht.
    - injection Ht as <-. rewrite (turn_stdin_end s Hen), shutdown_isConnected.
      rewrite (sc_isConnected _ _ (log_same_control _ _)). exact Hc.
    - injection Ht as <-. unfold on_signal. rewrite shutdown_isConnected.
      rewrite (sc_isConnected _ _ (log_same_control _ _)). exact Hc.
    - contradiction Hne; reflexivity.
    - injection Ht as <-. revert Hc; clear; split_state_ws s; auto.
    - injection Ht as <-. clear; split_state_ws s; reflexivity.
    - simpl in Q. destruct (find_timer id s) as [t|]; [|discriminate Q].
      destruct (timer_kind t); [|discriminate Q]. injection Ht as <-.
      destruct (reconnect_fired_result ctor_ok id s) as (_ & _ & -> & _).
      exact Hc. }
  split; [exact Hc'|].
  destruct Hs as [s e fuel s' Hex Hen Ht].
  destruct e; simpl decoded_lines; rewrite ?app_nil_r;
    try exact Hwq; [|contradiction Hne; reflexivity].
  simpl in Ht; injection Ht as <-. unfold on_line.
  destruct (JSON_parse line) as [m|]; simpl;
    [|rewrite log_wire, log_messageQueue, app_nil_r; auto].
  pose proof (log_same_control (Received_from_stdin m) s) as L.
  assert (Hc1 : isConnected (log (Received_from_stdin m) s) = false)
    by (rewrite (sc_isConnected _ _ L); exact Hc).
  destruct (sendToWebSocket_not_ready m _ (or_introl Hc1)) as (-> & -> & _).
  rewrite log_wire, log_messageQueue; auto.
Qed.

Lemma disconnected_steps (s s' : State) es :
  steps s es s' -> isConnected s = false -> ~ In EvWsOpen es ->
  isConnected s' = false /\ wire s' = wire s /\
  messageQueue s' = messageQueue s ++ decoded_lines es.
Proof.
  induction 1 as [s|s e s1 es s2 Hs _ IH]; intros Hc Hn.
  - simpl; rewrite app_nil_r; auto.
  - assert (Hne : e <> EvWsOpen) by (intros ->; apply Hn; left; reflexivity).
    destruct (disconnected_step _ _ _ Hs Hc Hne) as (Hc1 & Hw1 & Hq1).
    destruct (IH Hc1 (fun F => Hn (or_intror F))) as (Hc2 & Hw2 & Hq2).
    split; [exact Hc2|]. split; [congruence|].
    rewrite Hq2, Hq1, (decoded_lines_cons e es), app_assoc; reflexivity.
Qed.

(** C5.  Messages A, B, C submitted in that order while the bridge is not
    connected, whatever its socket (none yet, CONNECTING, CLOSING or CLOSED
    with a retry pending), are queued in that order.  Over any turns that
    follow before the next 'open' (the 'close' of the socket, retries that
    fail or build a new socket, errors, further lines, ...) the bridge stays
    disconnected, nothing is written to the socket and the queue keeps them,
    in order, followed by the messages of the lines that arrived since.  The
    'open' turn then returns (a CONNECTING socket can open), sets the
    connected flag, writes the queue to the socket in that order, A, B, C
    after whatever was queued before them, and leaves the queue empty. *)
Theorem queued_messages_drained_in_order_on_open :
  forall (A B C : Json) (s : State),
  isConnected s = false ->
  let s1 := sendToWebSocket C (sendToWebSocket B (sendToWebSocket A s)) in
  messageQueue s1 = messageQueue s ++ [A; B; C] /\
  wire s1 = wire s /\
  forall (es : list Event) (s2 : State),
    steps s1 es s2 -> ~ In EvWsOpen es ->
    isConnected s2 = false /\
    wire s2 = wire s /\
    messageQueue s2 = messageQueue s ++ [A; B; C] ++ decoded_lines es /\
    (exit_code s2 = None -> ws_state s2 = Some CONNECTING ->
     exists s3, step s2 EvWsOpen s3) /\
    forall s3, step s2 EvWsOpen s3 ->
      isConnected s3 = true /\
      wire s3 = wire s ++ map JSON_stringify (messageQueue s)
                  ++ [JSON_stringify A; JSON_stringify B; JSON_stringify C]
                  ++ map JSON_stringify (decoded_lines es) /\
      messageQueue s3 = [].
Proof.
  intros A B C s Hc s1.
  pose proof (sendToWebSocket_same_control A s) as SA.
  pose proof (sendToWebSocket_same_control B (sendToWebSocket A s)) as SB.
  pose proof (sendToWebSocket_same_control C
                (sendToWebSocket B (sendToWebSocket A s))) as SC.
  destruct (sendToWebSocket_not_ready A s (or_introl Hc)) as (WA & QA & _).
  assert (HcA : isConnected (sendToWebSocket A s) = false)
    by (rewrite (sc_isConnected _ _ SA); assumption).
  destruct (sendToWebSocket_not_ready B _ (or_introl HcA)) as (WB & QB & _).
  assert (HcB : isConnected (sendToWebSocket B (sendToWebSocket A s)) = false)
    by (rewrite (sc_isConnected _ _ SB); assumption).
  destruct (sendToWebSocket_not_ready C _ (or_introl HcB)) as (WC & QC & _).
  assert (Hc1 : isConnected s1 = false)
    by (subst s1; rewrite (sc_isConnected _ _ SC); assumption).
  assert (Q1 : messageQueue s1 = messageQueue s ++ [A; B; C])
    by (subst s1; rewrite QC, QB, QA, <- !app_assoc; reflexivity).
  assert (W1 : wire s1 = wire s) by (subst s1; congruence).
  split; [assumption|]. split; [assumption|].
  intros es s2 Hs Hn.
  destruct (disconnected_steps _ _ _ Hs Hc1 Hn) as (Hc2 & W2 & Q2).
  rewrite W1 in W2. rewrite Q1, <- app_assoc in Q2.
  split; [assumption|]. split; [assumption|]. split; [assumption|]. split.
  - intros Hex2 Hw2. destruct (turn_open_total s2 Hw2) as (s3 & Ht & _).
    exists s3. eapply step_turn; [exact Hex2 | | exact Ht].
    unfold enabled; rewrite Hw2; reflexivity.
  - intros s3 Hs3. inversion Hs3 as [? ? fuel ? Hex Hen Ht]; subst.
    destruct (turn_open_result _ _ _ Hen Ht) as (Eq & Ew & Ec & _).
    split; [assumption|]. split; [|assumption].
    rewrite Ew, W2, Q2, !map_app; reflexivity.
Qed.

(** *** When the process ends *)

Lemma exit_steps (s s' : State) es :
  steps s es s' -> exit_code s = None ->
  (exit_code s' = None <-> forallb (fun e => negb (ends_process e)) es = true) /\
  (forall c, exit_code s' = Some c ->
     c = 0%Z /\ exists es' e, es = es' ++ [e] /\ ends_process e = true).
Proof.
  induction 1 as [s|s e s1 es s2 Hs Hss IH]; intros Hex.
  - split; [split; auto|]. intros c E; congruence.
  - pose proof (step_exits _ _ _ Hs) as Hx.
    destruct (ends_process e) eqn:P.
    + assert (E1 : exit_code s1 = Some 0%Z) by (destruct e; auto; discriminate).
      assert (es = [] /\ s2 = s1) as (-> & ->).
      { inversion Hss as [|? ? ? ? ? Hs2]; subst; [auto|].
        exfalso; eapply no_step_after_exit; [|eassumption]. congruence. }
      simpl; rewrite P, E1; simpl. split.
      * split; discriminate.
      * intros c E; injection E as <-. split; [reflexivity|].
        exists [], e; auto.
    + assert (E1 : exit_code s1 = None) by (destruct e; auto; discriminate).
      destruct (IH E1) as (Hiff & Hc). simpl; rewrite P; simpl.
      split; [exact Hiff|]. intros c E.
      destruct (Hc c E) as (-> & es' & e' & -> & P').
      split; [reflexivity|]. exists (e :: es'), e'; auto.
Qed.

(** X6.  The process ends only through [shutdown], with code 0: in an
    execution it has exited exactly when an end of input or a signal
    (SIGINT, SIGTERM) occurred, that event is then the last one, and the
    exit code is 0.  No other turn ends the process: not a socket error or
    close, not a refused connection, not a line or a frame that does not
    decode. *)
Theorem exits_only_on_stdin_end_or_signal :
  forall (es : list Event) (s : State),
  execution es s ->
  (exit_code s = None <-> forallb (fun e => negb (ends_process e)) es = true) /\
  (forall c, exit_code s = Some c ->
     c = 0%Z /\ exists es' e, es = es' ++ [e] /\ ends_process e = true).
Proof.
  intros es s (u & o & env & ok & s0 & E & Hs).
  apply (exit_steps _ _ _ Hs).
  apply (start_observed u o env ok s0 E).
Qed.

(** *** When the drain returns *)

(** X7.  The loop of [flushMessageQueue] ends exactly when the connected
    flag is off, or the queue is empty, or the socket is OPEN.  With the
    flag on, messages queued and a socket that is missing or not OPEN, no
    number of iterations ends it: each one puts the message taken off the
    head back at the tail.  When it ends, one iteration per queued message
    was enough; with the flag off nothing was done, and otherwise the whole
    queue went onto the wire, in order. *)
Theorem drain_returns_iff :
  forall s : State,
  ((exists fuel s', flushMessageQueue fuel s = Some s') <->
   (isConnected s = false \/ messageQueue s = [] \/ ws_open s = true)) /\
  (isConnected s = true -> messageQueue s <> [] -> ws_open s = false ->
   forall fuel, flushMessageQueue fuel s = None) /\
  (forall fuel s', flushMessageQueue fuel s = Some s' ->
     flushMessageQueue (List.length (messageQueue s)) s = Some s' /\
     (isConnected s = false -> s' = s) /\
     (isConnected s = true ->
        messageQueue s' = [] /\
        wire s' = wire s ++ map JSON_stringify (messageQueue s))).
Proof.
  intros s.
  assert (Hoff : isConnected s = false -> forall fuel,
            flushMessageQueue fuel s = Some s).
  { intros Hc fuel. destruct fuel; simpl; unfold flush_guard; rewrite Hc,
      andb_false_r; reflexivity. }
  assert (Hnil : messageQueue s = [] -> forall fuel,
            flushMessageQueue fuel s = Some s).
  { intros Hq fuel. destruct fuel; simpl; rewrite (flush_guard_nil s Hq);
      reflexivity. }
  assert (Hret : forall fuel s', flushMessageQueue fuel s = Some s' ->
            isConnected s = false \/ messageQueue s = [] \/ ws_open s = true).
  { intros fuel s' E. destruct (isConnected s) eqn:Hc; [|auto].
    destruct (messageQueue s) as [|m q] eqn:Hq; [auto|].
    destruct (ws_open s) eqn:Ho; [auto|].
    rewrite flushMessageQueue_spins in E; [discriminate|assumption..|].
    rewrite Hq; discriminate. }
  split; [|split].
  - split.
    + intros (fuel & s' & E); eauto.
    + intros [Hc|[Hq|Ho]].
      * exists 0, s; auto.
      * exists 0, s; auto.
      * destruct (isConnected s) eqn:Hc; [|exists 0, s; auto].
        destruct (flushMessageQueue_open (messageQueue s)
                    (List.length (messageQueue s)) s eq_refl Hc Ho (le_n _))
          as (s' & E & _). eauto.
  - intros Hc Hq Ho fuel. apply flushMessageQueue_spins; assumption.
  - intros fuel s' E. destruct (Hret fuel s' E) as [Hc|[Hq|Ho]].
    + rewrite (Hoff Hc) in *. injection E as <-.
      split; [reflexivity|]. split; [reflexivity|congruence].
    + rewrite (Hnil Hq) in *. injection E as <-.
      split; [reflexivity|]. split; [reflexivity|].
      intros _; rewrite Hq; simpl; rewrite app_nil_r; auto.
    + destruct (isConnected s) eqn:Hc.
      * destruct (flushMessageQueue_open (messageQueue s)
                    (List.length (messageQueue s)) s eq_refl Hc Ho (le_n _))
          as (s1 & E1 & Eq & Ew & _).
        assert (s' = s1).
        { destruct (Nat.le_ge_cases fuel (List.length (messageQueue s)))
            as [Hle|Hle].
          - rewrite (flushMessageQueue_fuel _ _ _ _ E Hle) in E1.
            congruence.
          - rewrite (flushMessageQueue_fuel _ _ _ _ E1 Hle) in E.
            congruence. }
        subst s1. split; [assumption|]. split; [discriminate|auto].
      * rewrite (Hoff eq_refl) in *. injection E as <-.
        split; [reflexivity|]. split; [reflexivity|discriminate].
Qed.

(** *** Pings *)

(** X8.  A ping is sent only by the callback of the heartbeat interval, and
    only when the socket is OPEN at that moment, one ping per firing: every
    other turn, and a firing that finds the socket missing or not OPEN,
    leaves the number of pings as it was. *)
Theorem ping_only_from_heartbeat_on_open_socket :
  forall (s s' : State) (e : Event),
  step s e s' ->
  (pings s' = pings s + 1 /\ ws_state s = Some OPEN /\
   exists id ctor_ok t, e = EvTimer id ctor_ok /\ find_timer id s = Some t /\
     timer_kind t = HeartbeatInterval) \/
  (pings s' = pings s /\
   forall id ctor_ok t, e = EvTimer id ctor_ok -> find_timer id s = Some t ->
     timer_kind t = HeartbeatInterval -> ws_state s <> Some OPEN).
Proof.
  intros s s' e Hs; destruct Hs as [s e fuel s' Hex Hen Ht].
  destruct e; simpl in Ht; try (injection Ht as <-).
  - right. split; [|discriminate].
    apply (sc_pings _ _ (on_line_same_control line s)).
  - right. split; [|discriminate]. rewrite (turn_stdin_end s Hen).
    assert (Hex' : exit_code (log Stdin_closed (set_rl_closed true s)) = None)
      by (rewrite log_exit_code; assumption).
    rewrite (sd_pings _ _ (shutdown_spec _ Hex')).
    rewrite (sc_pings _ _ (log_same_control _ _)); reflexivity.
  - right. split; [|discriminate]. unfold on_signal.
    assert (Hex' : exit_code (log (Received_signal sig) s) = None)
      by (rewrite log_exit_code; assumption).
    rewrite (sd_pings _ _ (shutdown_spec _ Hex')).
    apply (sc_pings _ _ (log_same_control _ _)).
  - right. split; [|discriminate]. apply (turn_open_result _ _ _ Hen Ht).
  - right. split; [|discriminate]. unfold on_message.
    destruct (JSON_parse data); clear; split_state_ws s; reflexivity.
  - right. split; [|discriminate]. clear; split_state_ws s; reflexivity.
  - right. split; [|discriminate]. clear; split_state_ws s; reflexivity.
  - right. split; [|discriminate]. clear; split_state_ws s; reflexivity.
  - right. split; [|discriminate]. clear; split_state_ws s; reflexivity.
  - destruct (find_timer id s) as [t|] eqn:F.
    + destruct (timer_kind t) eqn:K; injection Ht as <-.
      * right. split; [apply (reconnect_fired_result ctor_ok id s)|].
        intros id' ok' t' E; injection E as <- <-. congruence.
      * unfold heartbeat_callback. destruct (ws_open s) eqn:Ho.
        -- left. split; [clear; split_state_ws s; reflexivity|].
           split; [|exists id, ctor_ok, t; auto].
           revert Ho; clear; split_state s; intros Ho;
             try discriminate Ho; reflexivity.
        -- right. split; [reflexivity|]. intros _ _ _ _ _ _.
           revert Ho; clear; split_state s; intros Ho; try discriminate Ho;
             discriminate.
    + injection Ht as <-. right. split; [reflexivity|].
      intros id' ok' t' E; injection E as <- <-. congruence.
Qed.

(** *** The log *)

Lemma log_quiet l (s : State) : debug (options s) = false -> log l s = s.
Proof. intros Hd; unfold log; rewrite Hd; reflexivity. Qed.

Lemma sendToWebSocket_quiet m (s : State) :
  debug (options s) = false -> stderr (sendToWebSocket m s) = stderr s.
Proof.
  intros Hd; unfold sendToWebSocket.
  destruct (isConnected s && ws_open s); [reflexivity|].
  rewrite (log_quiet _ _ Hd); reflexivity.
Qed.

Lemma flushMessageQueue_quiet fuel : forall (s s' : State),
  debug (options s) = false -> flushMessageQueue fuel s = Some s' ->
  stderr s' = stderr s.
Proof.
  induction fuel as [|fuel IH]; simpl; intros s s' Hd E;
    destruct (flush_guard s); try discriminate E;
    try (injection E as <-; reflexivity).
  assert (Hd' : debug (options (flush_body s)) = false)
    by (rewrite (sc_options _ _ (flush_body_same_control s)); assumption).
  rewrite (IH _ _ Hd' E). unfold flush_body.
  destruct (messageQueue s) as [|m rest]; [reflexivity|].
  rewrite log_quiet by exact Hd. rewrite sendToWebSocket_quiet by exact Hd.
  reflexivity.
Qed.

Lemma shutdown_quiet (s : State) :
  debug (options s) = false -> stderr (shutdown s) = stderr s.
Proof.
  destruct s as [? [? ? ? ? ? []] [[? ? ?]|] ? ? ? [?|] [?|] [] [] ? ? ? ? ? ? [?|]];
    intros Hd; try discriminate Hd; reflexivity.
Qed.

Lemma step_quiet (s s' : State) e :
  step s e s' -> debug (options s) = false -> stderr s' = stderr s.
Proof.
  intros Hs Hd; destruct Hs as [s e fuel s' Hex Hen Ht].
  destruct e; simpl in Ht; try (injection Ht as <-).
  - unfold on_line. destruct (JSON_parse line);
      rewrite (log_quiet _ _ Hd); [apply sendToWebSocket_quiet|]; auto.
  - rewrite (turn_stdin_end s Hen). rewrite log_quiet by exact Hd.
    rewrite shutdown_quiet by exact Hd. reflexivity.
  - unfold on_signal. rewrite (log_quiet _ _ Hd). apply shutdown_quiet; auto.
  - unfold on_open in Ht. apply flushMessageQueue_quiet in Ht.
    + rewrite Ht. revert Hd; clear; split_state_ws s; intros Hd;
        try discriminate Hd; reflexivity.
    + revert Hd; clear; split_state_ws s; intros Hd; try discriminate Hd;
        reflexivity.
  - unfold on_message. destruct (JSON_parse data);
      rewrite (log_quiet _ _ Hd); reflexivity.
  - unfold on_error. rewrite (log_quiet _ _ Hd); reflexivity.
  - unfold set_readyState; destruct (ws s); reflexivity.
  - revert Hd; clear; split_state_ws s; intros Hd; try discriminate Hd;
      reflexivity.
  - unfold on_pong. rewrite (log_quiet _ _ Hd); reflexivity.
  - destruct (find_timer id s) as [t|];
      [destruct (timer_kind t)|]; injection Ht as <-; [| |reflexivity].
    + revert Hd; clear; destruct ctor_ok; split_state_ws s; intros Hd;
        try discriminate Hd; reflexivity.
    + unfold heartbeat_callback. destruct (ws_open s); [|reflexivity].
      rewrite (log_quiet _ _ Hd); reflexivity.
Qed.

(** X9.  Without debug logging (neither the [debug] option nor DEBUG=true)
    the bridge writes nothing to stderr, in any execution: no start-up
    line, no warning for a queued message, no error for a line or a frame
    that does not decode, for a socket error or a refused connection. *)
Theorem silent_without_debug :
  forall u o env ctor_ok (s0 s : State) (es : list Event),
  new_bridge u o env = Some s0 ->
  steps (start ctor_ok s0) es s ->
  debug (build_options o env) = false ->
  stderr s = [].
Proof.
  intros u o env ok s0 s es E Hs Hd.
  destruct (start_observed u o env ok s0 E) as (_ & _ & _ & _ & Eo & _).
  rewrite <- Eo in Hd.
  assert (E0 : stderr (start ok s0) = []).
  { revert Hd. unfold new_bridge in E.
    destruct (String.eqb u EmptyString); [discriminate|].
    injection E as <-.
    destruct (build_options o env) as [? ? ? ? ? []]; destruct ok;
      compute_state; intros Hd; try discriminate Hd; reflexivity. }
  rewrite <- E0. clear E Eo E0.
  induction Hs as [s|s e s1 es s2 Hs _ IH]; [reflexivity|].
  rewrite IH.
  - apply (step_quiet _ _ _ Hs Hd).
  - destruct (step_frame _ _ _ Hs) as (-> & _). exact Hd.
Qed.

(** *** The command line *)

Lemma ws_url_is_no_flag (a : string) :
  is_ws_url a = true ->
  is_token_flag a = false /\ is_debug_flag a = false /\
  is_help_flag a = false /\ a <> EmptyString.
Proof.
  unfold is_ws_url. destruct a as [|c a]; [discriminate|]. intros H.
  assert (E : c = "w"%char).
  { apply orb_true_iff in H as [H|H].
    - change (String.prefix "ws://" (String c a))
        with (if ascii_dec "w" c then String.prefix "s://" a else false) in H.
      destruct (ascii_dec "w" c); [auto|discriminate].
    - change (String.prefix "wss://" (String c a))
        with (if ascii_dec "w" c then String.prefix "ss://" a else false) in H.
      destruct (ascii_dec "w" c); [auto|discriminate]. }
  subst c. repeat split; try reflexivity; discriminate.
Qed.

Lemma parseArgs_from_exit n : forall args o c out,
  List.length args <= n -> parseArgs_from o args = Exit c out ->
  (c = 0%Z /\ out = Help_text /\
   exists a, In a args /\ is_help_flag a = true) \/
  (c = 1%Z /\
   exists a, In a args /\ is_token_flag a = false /\
     is_debug_flag a = false /\ is_help_flag a = false /\
     is_ws_url a = false /\
     out = if String.prefix "-" a then Unknown_option a
           else Invalid_argument a).
Proof.
  assert (W : forall (args : list string) x c out,
    ((c = 0%Z /\ out = Help_text /\
      exists a, In a args /\ is_help_flag a = true) \/
     (c = 1%Z /\
      exists a, In a args /\ is_token_flag a = false /\
        is_debug_flag a = false /\ is_help_flag a = false /\
        is_ws_url a = false /\
        out = if String.prefix "-" a then Unknown_option a
              else Invalid_argument a)) ->
    ((c = 0%Z /\ out = Help_text /\
      exists a, In a (x :: args) /\ is_help_flag a = true) \/
     (c = 1%Z /\
      exists a, In a (x :: args) /\ is_token_flag a = false /\
        is_debug_flag a = false /\ is_help_flag a = false /\
        is_ws_url a = false /\
        out = if String.prefix "-" a then Unknown_option a
              else Invalid_argument a))).
  { intros args x c out [(H1 & H2 & a & Hin & Ha)|(H1 & a & Hin & Ha)];
      [left|right]; repeat split; auto; exists a; split; auto; right; auto. }
  induction n as [|n IH]; intros [|a rest] o c out L; simpl;
    try discriminate; try (simpl in L; lia).
  simpl in L.
  destruct (is_token_flag a) eqn:Tk.
  { destruct rest as [|x rest']; [discriminate|]. intros E.
    apply W, W. eapply IH; [simpl in L; lia | exact E]. }
  destruct (is_debug_flag a) eqn:Db.
  { intros E. apply W. eapply IH; [lia | exact E]. }
  destruct (is_help_flag a) eqn:Hp.
  { intros E; injection E as <- <-. left. repeat split.
    exists a; split; [left; reflexivity | assumption]. }
  destruct (is_ws_url a) eqn:Ur.
  { intros E. apply W. eapply IH; [lia | exact E]. }
  intros E. right.
  assert (c = 1%Z /\ out = if String.prefix "-" a then Unknown_option a
                          else Invalid_argument a) as (-> & ->)
    by (destruct (String.prefix "-" a); injection E as <- <-; auto).
  split; [reflexivity|]. exists a. repeat split; simpl; auto.
Qed.

Lemma parseArgs_from_url n : forall args o o',
  List.length args <= n -> parseArgs_from o args = Parsed o' ->
  cli_url o' = cli_url o \/
  exists u, cli_url o' = Some u /\ In u args /\ is_ws_url u = true.
Proof.
  induction n as [|n IH]; intros [|a rest] o o' L; simpl;
    try (intros E; injection E as <-; left; reflexivity);
    try (simpl in L; lia).
  simpl in L.
  destruct (is_token_flag a) eqn:Tk.
  { destruct rest as [|x rest'];
      [intros E; injection E as <-; left; reflexivity|]. intros E.
    destruct (IH rest' _ o' ltac:(simpl in L; lia) E)
      as [E'|(u & E' & Hin & Hu)]; [left; exact E'|right].
    exists u; repeat split; simpl; auto. }
  destruct (is_debug_flag a) eqn:Db.
  { intros E. destruct (IH rest _ o' ltac:(lia) E)
      as [E'|(u & E' & Hin & Hu)]; [left; exact E'|right].
    exists u; repeat split; simpl; auto. }
  destruct (is_help_flag a) eqn:Hp; [discriminate|].
  destruct (is_ws_url a) eqn:Ur.
  { intros E. right. destruct (IH rest _ o' ltac:(lia) E)
      as [E'|(u & E' & Hin & Hu)].
    - exists a. rewrite E'. repeat split; simpl; auto.
    - exists u; repeat split; simpl; auto. }
  destruct (String.prefix "-" a); discriminate.
Qed.

(** X11.  When the main block starts a bridge, its url is one of the
    arguments, beginning with ws:// or wss://; the token and the debug
    flag are those of the command line, with AUTH_TOKEN and DEBUG behind
    them; the four timing options are the defaults, since no argument
    sets them; and the state is the first one of an execution: the reader's
    listeners are attached and either a socket is CONNECTING or, when the
    constructor of the socket threw, the first retry is armed. *)
Theorem main_starts_with_url_argument :
  forall (args : list string) (env : Env) (ctor_ok : bool) (s : State),
  main args env ctor_ok = Started s ->
  exists u o,
    parseArgs args = Parsed o /\ cli_url o = Some u /\
    In u args /\ is_ws_url u = true /\ url s = u /\
    token (options s) = str_or (cli_token o) (AUTH_TOKEN env) /\
    (cli_debug o = true -> debug (options s) = true) /\
    reconnectInterval (options s) = 1000%Q /\
    maxReconnectInterval (options s) = 30000%Q /\
    reconnectDecay (options s) = (3 # 2)%Q /\
    heartbeatInterval (options s) = 30000%Q /\
    reachable s /\ exit_code s = None /\ rl_listening s = true /\
    ws_state s = (if ctor_ok then Some CONNECTING else None) /\
    (ctor_ok = false ->
     armed ReconnectTimeout s = [mkTimer 0 ReconnectTimeout 1000%Q]).
Proof.
  intros args env ok s. unfold main.
  destruct (parseArgs args) as [o|] eqn:P; [|discriminate].
  destruct (cli_url o) as [u|] eqn:U; [|discriminate].
  destruct u as [|c u]; [discriminate|].
  destruct (new_bridge _ _ env) as [s0|] eqn:N; [|discriminate].
  intros E; injection E as <-.
  exists (String c u), o.
  destruct (parseArgs_from_url _ _ _ _ (le_n _) P)
    as [E'|(u' & E' & Hin & Hu)]; [rewrite U in E'; discriminate E'|].
  rewrite U in E'; injection E' as <-.
  split; [reflexivity|]. split; [exact U|].
  split; [assumption|]. split; [assumption|].
  assert (R : reachable (start ok s0)) by (econstructor; eassumption).
  destruct (start_observed _ _ _ ok _ N)
    as (_ & _ & _ & Eu & Eo & _ & Ex & _).
  destruct (start_shape _ _ _ ok _ N) as (El & Ew & Et).
  split; [exact Eu|]. rewrite Eo.
  split; [reflexivity|].
  split; [intros D; unfold bridgeOptions, build_options; simpl; rewrite D;
          reflexivity|].
  do 4 (split; [reflexivity|]).
  split; [exact R|]. split; [exact Ex|]. split; [exact El|].
  split; [exact Ew|].
  intros ->. unfold armed. rewrite (Et eq_refl). reflexivity.
Qed.

(** X12.  How the main block can end without a bridge.  The constructor
    never throws there: an absent url is caught before.  The process exits
    with code 0 only for the help text, after a --help or -h among the
    arguments; every other exit has code 1: no url among the arguments, or
    an argument that is no option and no ws:// or wss:// url, reported as
    an unknown option when it begins with a dash and as an invalid argument
    otherwise. *)
Theorem main_exit_codes :
  forall (args : list string) (env : Env) (ctor_ok : bool),
  main args env ctor_ok <> Threw /\
  forall c out, main args env ctor_ok = Exited c out ->
    (c = 0%Z /\ out = Help_text /\
     exists a, In a args /\ is_help_flag a = true) \/
    (c = 1%Z /\ out = Url_required /\
     exists o, parseArgs args = Parsed o /\ cli_url o = None) \/
    (c = 1%Z /\
     exists a, In a args /\ is_token_flag a = false /\
       is_debug_flag a = false /\ is_help_flag a = false /\
       is_ws_url a = false /\
       out = if String.prefix "-" a then Unknown_option a
             else Invalid_argument a).
Proof.
  intros args env ok. unfold main.
  destruct (parseArgs args) as [o|c0 out0] eqn:P.
  - destruct (cli_url o) as [u|] eqn:U.
    + destruct (parseArgs_from_url _ _ _ _ (le_n _) P)
        as [E'|(u' & E' & Hin & Hu)]; [rewrite U in E'; discriminate E'|].
      rewrite U in E'; injection E' as <-.
      destruct (ws_url_is_no_flag u Hu) as (_ & _ & _ & Hne).
      destruct u as [|c u]; [contradiction Hne; reflexivity|].
      simpl. split; [discriminate|]. intros c1 out1 E; discriminate E.
    + split; [discriminate|]. intros c out E; injection E as <- <-.
      right; left. repeat split. exists o; auto.
  - split; [discriminate|]. intros c out E; injection E as <- <-.
    destruct (parseArgs_from_exit _ _ _ _ _ (le_n _) P) as [H|H]; auto.
Qed.

(** X13.  The url, the token and the debug flag may come in any order: for a
    url beginning with ws:// or wss:// and any token, the six orders of
    [url], [--token token] and [--debug] parse to the same options, and so
    do the short forms -t and -d.  The argument after --token is taken as
    the token whatever it is. *)
Theorem parseArgs_any_order :
  forall (u t : string),
  is_ws_url u = true ->
  let o := Parsed (mkCliOptions (Some u) (Some t) true) in
  parseArgs [u; "--token"; t; "--debug"] = o /\
  parseArgs [u; "--debug"; "--token"; t] = o /\
  parseArgs ["--token"; t; u; "--debug"] = o /\
  parseArgs ["--token"; t; "--debug"; u] = o /\
  parseArgs ["--debug"; u; "--token"; t] = o /\
  parseArgs ["--debug"; "--token"; t; u] = o /\
  parseArgs [u; "-t"; t; "-d"] = o /\
  parseArgs ["-d"; "-t"; t; u] = o.
Proof.
  intros u t Hu. destruct (ws_url_is_no_flag u Hu) as (H1 & H2 & H3 & _).
  unfold parseArgs; simpl. rewrite H1, H2, H3, Hu. simpl.
  repeat split; reflexivity.
Qed.

(** *** The constructor *)

Lemma num_or_not_zero (x : option Q) (d : Q) :
  ~ (d == 0)%Q -> ~ (num_or x d == 0)%Q.
Proof.
  intros Hd. unfold num_or. destruct x as [q|]; [|exact Hd].
  destruct (Qeq_bool q 0) eqn:E; [exact Hd|].
  intros F. apply Qeq_bool_iff in F. congruence.
Qed.

Lemma num_or_given (q d : Q) : ~ (q == 0)%Q -> num_or (Some q) d = q.
Proof.
  intros Hq. unfold num_or. destruct (Qeq_bool q 0) eqn:E; [|reflexivity].
  apply Qeq_bool_iff in E. contradiction.
Qed.

(** X14.  The constructor throws exactly when the url is empty; otherwise
    the bridge starts disconnected, with no socket, an empty queue, no
    timer and attempt counter 0.  Its [||] defaults treat every falsy value
    as missing: none of the four numeric options is ever 0 (a 0 gives the
    default, any other number, a negative one too, is kept); an empty
    [token] option gives AUTH_TOKEN; and debug logging is on exactly when
    the [debug] option is true or DEBUG is the string true, so [debug:
    false] does not silence DEBUG=true. *)
Theorem constructor_replaces_falsy_options :
  forall (u : string) (o : UserOptions) (env : Env),
  (new_bridge u o env = None <-> u = EmptyString) /\
  (forall s0 : State, new_bridge u o env = Some s0 ->
     url s0 = u /\ options s0 = build_options o env /\ ws s0 = None /\
     messageQueue s0 = [] /\ reconnectAttempts s0 = 0 /\
     isConnected s0 = false /\ timers s0 = [] /\ exit_code s0 = None) /\
  (~ (reconnectInterval (build_options o env) == 0)%Q /\
   ~ (maxReconnectInterval (build_options o env) == 0)%Q /\
   ~ (reconnectDecay (build_options o env) == 0)%Q /\
   ~ (heartbeatInterval (build_options o env) == 0)%Q) /\
  (forall q, ~ (q == 0)%Q ->
     (u_reconnectInterval o = Some q ->
      reconnectInterval (build_options o env) = q) /\
     (u_maxReconnectInterval o = Some q ->
      maxReconnectInterval (build_options o env) = q) /\
     (u_reconnectDecay o = Some q ->
      reconnectDecay (build_options o env) = q) /\
     (u_heartbeatInterval o = Some q ->
      heartbeatInterval (build_options o env) = q)) /\
  (u_token o = Some EmptyString \/ u_token o = None ->
   token (build_options o env) = AUTH_TOKEN env) /\
  (debug (build_options o env) = true <->
   u_debug o = Some true \/ DEBUG env = Some "true").
Proof.
  intros u o env. split; [|split; [|split; [|split; [|split]]]].
  - unfold new_bridge. destruct (String.eqb u EmptyString) eqn:E.
    + apply String.eqb_eq in E. split; auto.
    + apply String.eqb_neq in E. split; [discriminate|contradiction].
  - unfold new_bridge. destruct (String.eqb u EmptyString); [discriminate|].
    intros s0 E; injection E as <-. repeat split.
  - unfold build_options; simpl.
    repeat split; apply num_or_not_zero; discriminate.
  - intros q Hq. unfold build_options; simpl.
    repeat split; intros ->; apply num_or_given; assumption.
  - unfold build_options; simpl. intros [->| ->]; reflexivity.
  - unfold build_options; simpl.
    destruct (u_debug o) as [[]|]; destruct (DEBUG env) as [v|];
      try (split; [auto; discriminate | intros [F|F]; try discriminate F;
                   reflexivity]).
    all: try (split; [intros F; discriminate F | intros [F|F]; discriminate F]).
    all: rewrite String.eqb_eq; split;
      [intros ->; right; reflexivity
      | intros [F|F]; [discriminate F | injection F as ->; reflexivity]].
Qed.

(** *** Runs are executions *)

Lemma after_steps es (s0 : State) :
  run es s0 <> None -> steps s0 es (after es s0).
Proof.
  unfold after; destruct (run es s0) eqn:E; [|intros F; contradiction F;
    reflexivity].
  intros _; apply run_steps; exact E.
Qed.

Lemma steps_execution u o env ctor_ok (s0 s : State) es :
  new_bridge u o env = Some s0 -> steps (start ctor_ok s0) es s ->
  execution es s.
Proof. intros E Hs; exists u, o, env, ctor_ok, s0; auto. Qed.

Lemma execution_reachable es (s : State) : execution es s -> reachable s.
Proof.
  intros (u & o & env & ok & s0 & E & Hs).
  eapply steps_reachable; [|eassumption]. econstructor; eassumption.
Qed.

End Facts.

(** ** The theorems at concrete states *)

(** The example states occur in executions. *)
Example connecting0_reachable : reachable connecting0.
Proof.
  apply (reachable_start the_url debug_on env0 true bridge0); reflexivity.
Qed.

Example connected0_reachable : reachable connected0.
Proof.
  unfold connected0.
  destruct (turn 1 EvWsOpen connecting0) as [s|] eqn:E;
    [|exact connecting0_reachable].
  apply (reachable_step connecting0 EvWsOpen s connecting0_reachable).
  apply step_turn with (fuel := 1); [reflexivity | reflexivity | exact E].
Qed.

Example stuck0_reachable : reachable stuck0.
Proof.
  unfold stuck0.
  destruct (run _ connected0) as [s|] eqn:E; [|exact connected0_reachable].
  exact (steps_reachable _ _ _ connected0_reachable (run_steps _ _ _ E)).
Qed.

Lemma scheduleReconnect_default_backoff_witness :
  timers (scheduleReconnect attempt2) =
    [mkTimer 0 ReconnectTimeout
             (reconnect_timeout (build_options no_options env0) 2)] /\
  (reconnect_timeout (build_options no_options env0) 2 == 2250)%Q.
Proof.
  destruct (scheduleReconnect_default_backoff env0 attempt2 eq_refl eq_refl)
    as (H1 & _ & _ & _ & H3 & _).
  split; [exact H1 | exact H3].
Defined.

Lemma flush_failed_delivery_requeues_at_tail_witness :
  messageQueue (flush_body stuck0) = [msgB; msgA] /\
  wire (flush_body stuck0) = wire stuck0.
Proof.
  destruct (flush_failed_delivery_requeues_at_tail msgA [msgB] stuck0
              eq_refl eq_refl) as (H1 & H2 & _).
  split; [exact H1 | exact H2].
Defined.

(** C2, as stated, fails here: the message taken off the head comes back at
    the tail, so the queue is not in the order it had before, and the loop
    guard still holds, so the drain does not stop: it never does. *)
Lemma flush_failed_delivery_counterexample :
  isConnected stuck0 = true /\ ws_open stuck0 = false /\
  messageQueue stuck0 = [msgA; msgB] /\
  messageQueue (flush_body stuck0) = [msgB; msgA] /\
  messageQueue (flush_body stuck0) <> messageQueue stuck0 /\
  flush_guard (flush_body stuck0) = true /\
  (forall fuel, flushMessageQueue fuel stuck0 = None).
Proof.
  repeat match goal with |- _ /\ _ => split end; try reflexivity.
  - discriminate.
  - intros fuel; apply flushMessageQueue_spins; [reflexivity..|discriminate].
Qed.

(** C3, as stated, fails here: [startHeartbeat] on a connected bridge, whose
    heartbeat is armed, arms a second timer and changes the state. *)
Lemma startHeartbeat_twice_counterexample :
  heartbeatTimer connected0 = Some 0 /\
  List.length (armed HeartbeatInterval connected0) = 1 /\
  List.length (armed HeartbeatInterval (startHeartbeat connected0)) = 2 /\
  heartbeatTimer (startHeartbeat connected0) = Some 1 /\
  startHeartbeat connected0 <> connected0.
Proof.
  repeat match goal with |- _ /\ _ => split end; try reflexivity.
  intros E; apply (f_equal next_timer) in E; discriminate E.
Qed.

Lemma retried_steps : steps lost_queued retries retried.
Proof.
  apply after_steps.
  assert (E : option_map (fun _ => tt) (run retries lost_queued) = Some tt)
    by (vm_compute; reflexivity).
  intros F; rewrite F in E; discriminate E.
Qed.

Lemma retries_without_open : ~ In EvWsOpen retries.
Proof. intros [F|[F|[F|[]]]]; discriminate F. Qed.

Lemma queued_messages_drained_in_order_on_open_witness :
  isConnected lost0 = false /\ ws_state lost0 = Some CLOSED /\
  wire retried = [] /\ ws_state retried = Some CONNECTING /\
  exists s3,
    step retried EvWsOpen s3 /\
    wire s3 = ["1"; "2"; "3"; "4"] /\ messageQueue s3 = [].
Proof.
  destruct (queued_messages_drained_in_order_on_open msgA msgB msgC lost0
              eq_refl) as (_ & _ & H).
  destruct (H retries retried retried_steps retries_without_open)
    as (_ & _ & _ & Hex & Hopen).
  assert (Ex : exit_code retried = None) by (vm_compute; reflexivity).
  assert (Ew : ws_state retried = Some CONNECTING)
    by (vm_compute; reflexivity).
  do 3 (split; [vm_compute; reflexivity|]). split; [exact Ew|].
  destruct (Hex Ex Ew) as (s3 & Hs3).
  exists s3. split; [exact Hs3|].
  destruct (Hopen s3 Hs3) as (_ & Hw & Hq).
  split; [rewrite Hw; vm_compute; reflexivity | exact Hq].
Defined.

Lemma shutdown_cancels_timers_and_exits_witness :
  exit_code (shutdown connected0) = Some 0%Z /\
  find_timer 0 (shutdown connected0) = None /\
  ws_state (shutdown connected0) = Some CLOSING /\
  rl_closed (shutdown connected0) = true.
Proof.
  destruct (shutdown_cancels_timers_and_exits connected0 eq_refl)
    as (H1 & _ & H3 & _ & _ & H6 & H7 & _).
  split; [exact H1|]. split; [exact (H3 0 eq_refl)|].
  split; [exact (H6 eq_refl) | exact H7].
Defined.

Lemma malformed_line_is_discarded_witness :
  exists s1 s2,
    step connected0 (EvLine "not json") s1 /\ step s1 (EvLine "7") s2 /\
    stderr s1 = stderr connected0 ++ [Failed_to_parse_stdin "not json"] /\
    wire s2 = ["7"] /\ messageQueue s2 = [] /\ exit_code s2 = None.
Proof.
  destruct (malformed_line_is_discarded "not json" "7" seven
              connected0 eq_refl eq_refl eq_refl eq_refl eq_refl)
    as (s1 & s2 & H1 & H2 & _ & _ & _ & H6 & H7 & _ & H9 & _).
  exists s1, s2.
  destruct (H9 eq_refl eq_refl) as (Hw & Hq).
  repeat match goal with |- _ /\ _ => split end; assumption.
Defined.

(** C9, as stated, fails here: without debug logging (the default) a line
    that does not decode is discarded without any log entry. *)
Lemma malformed_line_unlogged_counterexample :
  debug (options quiet_started) = false /\
  JSON_parse "not json" = None /\
  step quiet_started (EvLine "not json") (on_line "not json" quiet_started) /\
  stderr (on_line "not json" quiet_started) = [].
Proof.
  repeat match goal with |- _ /\ _ => split end; try reflexivity.
  apply step_turn with (fuel := 0); reflexivity.
Qed.

(** ** Runs of the model *)

Example parse_request :
  MiniJson.parse (MiniJson.stringify request) = Some request.
Proof. reflexivity. Qed.

Example parse_garbage : MiniJson.parse "not json" = None.
Proof. reflexivity. Qed.


Example refused_delays :
  option_map (fun s => (scheduled s, reconnectAttempts s, map timer_id (timers s)))
             (run refused connecting0)
  = Some ([(1000%Q, 1); (1500%Q, 2); (2250%Q, 3); (3375%Q, 4)], 3, [3]).
Proof. reflexivity. Qed.

(** Messages typed while disconnected go out in order once the socket opens;
    a line typed while the socket is closing is queued; the 'close' that
    follows schedules attempt 1 again, after 1000 ms. *)
Example queue_then_open :
  option_map (fun s => (wire s, messageQueue s, scheduled s,
                        List.length (filter is_error (stderr s))))
             (run [EvLine "1"; EvLine "oops"; EvLine "2"; EvWsOpen; EvLine "3";
                   EvWsClosing; EvLine "4"; EvWsClose] connecting0)
  = Some (["1"; "2"; "3"], [MiniJson.JNum "4"], [(1000%Q, 1)], 1).
Proof. reflexivity. Qed.

(** SIGTERM while connected: nothing stays armed and no turn follows. *)
Example sigterm_while_connected :
  option_map (fun s => (timers s, exit_code s, run [EvTimer 0 true] s))
             (run [EvSignal SIGTERM] connected0)
  = Some ([], Some 0%Z, None).
Proof. reflexivity. Qed.

(** Three refused attempts, then a connection that opens and is lost: the
    retry after the loss is attempt 1 again, after 1000 ms. *)
Example reset_after_open :
  option_map (fun s => (scheduled s, reconnectAttempts s))
             (run (refused ++ [EvTimer 3 true; EvWsOpen; EvWsPong; EvTimer 4 true;
                               EvWsClose]) connecting0)
  = Some ([(1000%Q, 1); (1500%Q, 2); (2250%Q, 3); (3375%Q, 4); (1000%Q, 1)], 0).
Proof. reflexivity. Qed.

(** [scheduleReconnect] twice in a row on a fresh bridge: one timer. *)
Example schedule_twice :
  map timer_id (timers (scheduleReconnect (scheduleReconnect bridge0))) = [0] /\
  List.length (armed ReconnectTimeout (scheduleReconnect (scheduleReconnect bridge0))) = 1.
Proof. split; reflexivity. Qed.

(** ** The further theorems at concrete runs *)

Lemma session_steps : steps quiet_started session session_end.
Proof.
  apply after_steps.
  assert (E : option_map (fun _ => tt) (run session quiet_started) = Some tt)
    by reflexivity.
  intros F; rewrite F in E; discriminate E.
Qed.

Lemma session_execution : execution session session_end.
Proof.
  apply (steps_execution the_url no_options env0 true quiet0);
    [reflexivity | exact session_steps].
Qed.

Lemma session_killed_execution : execution session_killed session_killed_end.
Proof.
  apply (steps_execution the_url no_options env0 true quiet0);
    [reflexivity|].
  apply after_steps.
  assert (E : option_map (fun _ => tt) (run session_killed quiet_started)
              = Some tt) by reflexivity.
  intros F; rewrite F in E; discriminate E.
Qed.

Lemma second_socket_steps :
  steps (start true token0) [EvWsClose; EvTimer 0 true] second_socket.
Proof.
  apply after_steps.
  assert (E : option_map (fun _ => tt)
                (run [EvWsClose; EvTimer 0 true] (start true token0))
              = Some tt) by reflexivity.
  intros F; rewrite F in E; discriminate E.
Qed.

Lemma outbound_is_input_in_order_witness :
  wire session_end = ["1"; "2"; "3"] /\ messageQueue session_end = [] /\
  wire session_end ++ map JSON_stringify (messageQueue session_end)
    = ["1"; "2"; "3"].
Proof.
  destruct (outbound_is_input_in_order session session_end session_execution)
    as (H & _).
  split; [reflexivity|]. split; [reflexivity|]. rewrite H; reflexivity.
Defined.

Lemma stdout_is_frames_in_order_witness : stdout session_end = ["7"].
Proof.
  rewrite (stdout_is_frames_in_order session session_end session_execution).
  reflexivity.
Defined.

Lemma sockets_use_configured_url_and_token_witness :
  ws second_socket =
    Some (mkWebSocket the_url (Some "Bearer secret") CONNECTING) /\
  reconnectAttempts second_socket = 1 /\
  forall w, ws second_socket = Some w ->
    ws_url w = the_url /\ ws_authorization w = Some "Bearer secret".
Proof.
  destruct (sockets_use_configured_url_and_token the_url with_token env0 true
              token0 second_socket _ eq_refl second_socket_steps)
    as (_ & _ & H).
  split; [reflexivity|]. split; [reflexivity|exact H].
Defined.

Lemma retry_pending_while_no_live_socket_witness :
  ws_state session_end = Some CLOSED /\
  reconnectAttempts session_end = 1 /\
  exists id, reconnectTimer session_end = Some id /\
    armed ReconnectTimeout session_end =
      [mkTimer id ReconnectTimeout
         (reconnect_timeout (options session_end) 1)].
Proof.
  split; [reflexivity|]. split; [reflexivity|].
  exact (retry_pending_while_no_live_socket session_end
           (execution_reachable _ _ session_execution) eq_refl eq_refl).
Defined.

Lemma heartbeat_armed_iff_connected_witness :
  isConnected connected0 = true /\
  armed HeartbeatInterval connected0 = [mkTimer 0 HeartbeatInterval 30000%Q] /\
  exists id, heartbeatTimer connected0 = Some id /\
    armed HeartbeatInterval connected0 =
      [mkTimer id HeartbeatInterval (heartbeatInterval (options connected0))].
Proof.
  destruct (heartbeat_armed_iff_connected connected0 connected0_reachable
              eq_refl) as (_ & H & _).
  split; [reflexivity|]. split; [reflexivity|].
  exact (proj2 (H eq_refl)).
Defined.

Lemma exits_only_on_stdin_end_or_signal_witness :
  exit_code session_killed_end = Some 0%Z /\
  exists es' e, session_killed = es' ++ [e] /\ ends_process e = true.
Proof.
  destruct (exits_only_on_stdin_end_or_signal session_killed
              session_killed_end session_killed_execution) as (_ & H).
  split; [reflexivity|]. exact (proj2 (H 0%Z eq_refl)).
Defined.

Lemma connected0_heartbeat_step :
  step connected0 (EvTimer 0 true) (heartbeat_callback connected0).
Proof. apply step_turn with (fuel := 0); reflexivity. Qed.

Lemma ping_only_from_heartbeat_on_open_socket_witness :
  pings (heartbeat_callback connected0) = 1 /\
  ((pings (heartbeat_callback connected0) = pings connected0 + 1 /\
    ws_state connected0 = Some OPEN /\
    exists id ctor_ok t, EvTimer 0 true = EvTimer id ctor_ok /\
      find_timer id connected0 = Some t /\
      timer_kind t = HeartbeatInterval) \/
   (pings (heartbeat_callback connected0) = pings connected0 /\
    forall id ctor_ok t, EvTimer 0 true = EvTimer id ctor_ok ->
      find_timer id connected0 = Some t ->
      timer_kind t = HeartbeatInterval -> ws_state connected0 <> Some OPEN)).
Proof.
  split; [reflexivity|].
  exact (ping_only_from_heartbeat_on_open_socket connected0
           (heartbeat_callback connected0) (EvTimer 0 true)
           connected0_heartbeat_step).
Defined.

Lemma silent_without_debug_witness :
  stderr session_end = [] /\ stderr session_killed_end = [].
Proof.
  split.
  - exact (silent_without_debug the_url no_options env0 true quiet0
             session_end session eq_refl session_steps eq_refl).
  - reflexivity.
Defined.

Lemma main_starts_with_url_argument_witness :
  main [the_url; "--debug"] env0 true = Started connecting0 /\
  url connecting0 = the_url /\ debug (options connecting0) = true /\
  ws_state connecting0 = Some CONNECTING.
Proof.
  destruct (main_starts_with_url_argument [the_url; "--debug"] env0 true
              connecting0 eq_refl)
    as (u & o & P & U & _ & _ & Eu & _ & Ed & _ & _ & _ & _ & _ & _ & _ & Ew & _).
  split; [reflexivity|]. split; [reflexivity|].
  split; [reflexivity | exact Ew].
Defined.

Lemma parseArgs_any_order_witness :
  parseArgs [the_url; "--token"; "secret"; "--debug"]
    = Parsed (mkCliOptions (Some the_url) (Some "secret") true) /\
  parseArgs ["-d"; "-t"; "secret"; the_url]
    = Parsed (mkCliOptions (Some the_url) (Some "secret") true).
Proof.
  destruct (parseArgs_any_order the_url "secret" eq_refl)
    as (H1 & _ & _ & _ & _ & _ & _ & H8).
  split; [exact H1 | exact H8].
Defined.
